(** * ByteMap: a file <-> RGBA image codec

    A shallow embedding of [bytemap.py] (the Tk application) and of
    [bytemap_beta.py] (the Qt application), and the properties of the
    binary <-> pixel codec they share.

    Conventions.
    - A Python [bytes] object is a [list byte]; a Python [str] holding a bit
      string is a [list ascii]; file names and messages are [string].
    - [len] of a Python sequence is a [nat]; the integers the layout is
      computed from, the channel values and the big integer of the reverse
      path are [N].
    - A Python call that may raise returns a [result]; the two conversion
      methods, which also talk to the user interface and to the disk, run in
      the monad [M] that records those calls in order. *)

From Stdlib Require Import NArith ZArith Bool Ascii String List Lia.
From Stdlib.Strings Require Import Byte.
From Stdlib Require Import PrimFloat SpecFloat FloatOps Uint63.
Import ListNotations.

(* ================================================================== *)
(** * Python values, exceptions and built-ins                          *)
(* ================================================================== *)

Definition bytes := list byte.

(** The exceptions the modelled code can meet. *)
Inductive exn : Type :=
| ValueError          (* int('', 2), int of a non binary digit *)
| TypeError           (* putdata: too many data entries *)
| OverflowError       (* int too large for float / for to_bytes *)
| ZeroDivisionError
| ZstdError           (* zstandard failures *)
| OSError.            (* open / Image.open failures *)

Inductive result (A : Type) : Type :=
| Ok (a : A)
| Raise (e : exn).

Arguments Ok {A} a.
Arguments Raise {A} e.

Definition rbind {A B} (r : result A) (k : A -> result B) : result B :=
  match r with
  | Ok a => k a
  | Raise e => Raise e
  end.

Declare Scope result_scope.
Delimit Scope result_scope with result.
Notation "x <- r ;; k" := (rbind r (fun x => k))
  (at level 61, r at next level, right associativity) : result_scope.
Notation "' p <- r ;; k" := (rbind r (fun p => k))
  (at level 61, p pattern, r at next level, right associativity) : result_scope.

(** [[f(x) for x in xs]] for an [f] that may raise: the first exception stops
    the loop. *)
Fixpoint mapM {A B} (f : A -> result B) (xs : list A) : result (list B) :=
  match xs with
  | [] => Ok []
  | x :: xs' =>
      match f x with
      | Ok y =>
          match mapM f xs' with
          | Ok ys => Ok (y :: ys)
          | Raise e => Raise e
          end
      | Raise e => Raise e
      end
  end.

(** [s[i:j]] for [0 <= i <= j]; like Python it stops at the end of [s]. *)
Definition slice {A} (i j : nat) (s : list A) : list A :=
  firstn (j - i) (skipn i s).

(** [range(start, stop, step)] for [step > 0]. *)
Definition range (start stop step : nat) : list nat :=
  map (fun k => start + k * step) (seq 0 ((stop - start + (step - 1)) / step)).

(** ** [int(s, 2)]

    Defined on strings of binary digits, the only strings the program hands
    to [int]: they are built by [format(x, '08b')] or are runs of ['0'].
    The empty string and any other character raise [ValueError].  (Python
    also accepts a sign, a [0b] prefix, underscores and surrounding blanks;
    no theorem below applies [int_base2] to such a string.) *)
Definition digit2 (c : ascii) : option N :=
  if Ascii.eqb c "0" then Some 0%N
  else if Ascii.eqb c "1" then Some 1%N
  else None.

Fixpoint int2_from (acc : N) (s : list ascii) : result N :=
  match s with
  | [] => Ok acc
  | c :: s' =>
      match digit2 c with
      | Some d => int2_from (2 * acc + d)%N s'
      | None => Raise ValueError
      end
  end.

Definition int_base2 (s : list ascii) : result N :=
  match s with
  | [] => Raise ValueError
  | _ => int2_from 0%N s
  end.

(** ** [format(n, '08b')] and [f'{n:08b}']

    The binary digits of [n], most significant first, filled with ['0'] on
    the left up to a width of 8 (longer when [n >= 256]). *)
Fixpoint bin_pos (p : positive) (acc : list ascii) : list ascii :=
  match p with
  | xH => "1"%char :: acc
  | xO p' => bin_pos p' ("0"%char :: acc)
  | xI p' => bin_pos p' ("1"%char :: acc)
  end.

Definition bin (n : N) : list ascii :=
  match n with
  | N0 => ["0"%char]
  | Npos p => bin_pos p []
  end.

Definition zfill (width : nat) (s : list ascii) : list ascii :=
  repeat "0"%char (width - length s) ++ s.

Definition format_08b (n : N) : list ascii := zfill 8 (bin n).

(** ** [int.to_bytes(length, byteorder='big')] *)
Definition byte_of_N (n : N) : byte :=
  match Byte.of_N n with
  | Some b => b
  | None => x00
  end.

Fixpoint big_endian (length : nat) (v : N) : bytes :=
  match length with
  | O => []
  | S l => big_endian l (v / 256)%N ++ [byte_of_N (v mod 256)%N]
  end.

Definition to_bytes (v : N) (length : nat) : result bytes :=
  if (v <? 256 ^ N.of_nat length)%N then Ok (big_endian length v)
  else Raise OverflowError.

(* ================================================================== *)
(** * [int(n ** 0.5)] in binary64 arithmetic                           *)
(* ================================================================== *)

(** [pixel_count ** 0.5] is a floating-point power: the integer is first
    converted to the nearest double (ties to even), the power is taken in
    binary64 by the C library's [pow], and [int] truncates the result.  The
    three steps are written out on integers.

    The C library's [pow] returns a double adjacent to the true root, not
    always the nearest one.  [pow_half] below takes the nearest one.  For
    arguments below [2^52], which covers every bit string a machine can
    hold, the choice does not matter: either double adjacent to the true
    root truncates to the integer square root
    ([Float64Facts.adjacent_root_truncates]).  From [2^52] on the library's
    result can be one unit in the last place away from [pow_half]. *)
Module Float64.
Local Open Scope N_scope.

(** [float(n)]: the double nearest to [n], itself an integer, or
    [OverflowError] when [n] is beyond the range of doubles. *)
Definition float_of_int (n : N) : result N :=
  let sh := N.log2 n - 52 in
  let q := N.shiftr n sh in
  let r := n - N.shiftl q sh in
  let half := N.shiftl 1 (sh - 1) in
  let x :=
    if sh =? 0 then n
    else if (half <? r) || ((r =? half) && N.odd q) then N.shiftl (q + 1) sh
    else N.shiftl q sh in
  if 1024 <=? N.log2 x then Raise OverflowError else Ok x.

(** The double nearest to [sqrt x], for a double [x] with an integer value:
    the pair [(q, e)] stands for the double [q * 2^(e - 52)], where
    [2^e <= sqrt x < 2^(e+1)] and [q] is [sqrt x * 2^(52 - e)] rounded to
    the nearest integer (a tie would need [(2q+1)^2] to be even). *)
Definition pow_half (x : N) : N * N :=
  if x =? 0 then (0, 0)
  else
    let e := N.log2 x / 2 in
    let up := 52 - e in
    let down := e - 52 in
    let q := N.sqrt (N.shiftr (N.shiftl x (2 * up)) (2 * down)) in
    let q' :=
      if N.shiftl ((2 * q + 1) * (2 * q + 1)) (2 * down) <? N.shiftl (4 * x) (2 * up)
      then q + 1 else q in
    (q', e).

(** [int(f)] for a non-negative double: truncation. *)
Definition int_of_float (f : N * N) : N :=
  let '(q, e) := f in N.shiftr (N.shiftl q (e - 52)) (52 - e).

(** [int(n ** 0.5)]. *)
Definition int_pow_half (n : N) : result N :=
  match float_of_int n with
  | Ok x => Ok (int_of_float (pow_half x))
  | Raise e => Raise e
  end.

End Float64.

(* ================================================================== *)
(** * The part of PIL the program uses                                 *)
(* ================================================================== *)

Definition pixel : Type := N * N * N * N.

Module PIL.

(** An ['RGBA'] image: its size and its pixels in row-major order, which is
    what [getdata] returns and what a lossless container stores. *)
Record Image : Type := mkImage {
  size : N * N;
  getdata : list pixel
}.

(** [Image.new('RGBA', (width, height))]: every pixel is [(0, 0, 0, 0)]. *)
Definition new (width height : N) : Image :=
  mkImage (width, height) (repeat (0, 0, 0, 0)%N (N.to_nat (width * height))).

(** [img.putdata(pixels)]: the pixels overwrite the image from its first
    cell on; more pixels than cells is a [TypeError]. *)
Definition putdata (img : Image) (pixels : list pixel) : result Image :=
  if (length (getdata img) <? length pixels)%nat then Raise TypeError
  else Ok (mkImage (size img) (pixels ++ skipn (length pixels) (getdata img))).

End PIL.

(* ================================================================== *)
(** * bytemap.py: the codec functions                                  *)
(* ================================================================== *)

Local Open Scope result_scope.

Definition binary_to_rgba_pixels (binary_data : list ascii)
  : result (list pixel * nat) :=
  let padding_length := ((32 - length binary_data mod 32) mod 32)%nat in
  let binary_data := binary_data ++ repeat "0"%char padding_length in
  pixels <- mapM (fun i =>
              let chunk := slice i (i + 32) binary_data in
              r <- int_base2 (slice 0 8 chunk) ;;
              g <- int_base2 (slice 8 16 chunk) ;;
              b <- int_base2 (slice 16 24 chunk) ;;
              a <- int_base2 (slice 24 32 chunk) ;;
              Ok (r, g, b, a))
            (range 0 (length binary_data) 32) ;;
  Ok (pixels, padding_length).

Definition rgba_pixels_to_binary (pixels : list pixel) : list ascii :=
  concat (map (fun '(r, g, b, a) =>
                 format_08b r ++ format_08b g ++ format_08b b ++ format_08b a)
              pixels).

Definition create_image_from_binary (binary_data : list ascii) (width height : N)
  : result PIL.Image :=
  '(pixels, _) <- binary_to_rgba_pixels binary_data ;;
  PIL.putdata (PIL.new width height) pixels.

Definition create_binary_from_image (img : PIL.Image) : list ascii :=
  let pixels := PIL.getdata img in
  rgba_pixels_to_binary pixels.

(** Line 148: [''.join(format(byte, '08b') for byte in compressed_data)]. *)
Definition binary_of_bytes (data : bytes) : list ascii :=
  concat (map (fun byte => format_08b (Byte.to_N byte)) data).

(** Lines 151-152: [pixel_count = (len(binary_data) + 31) // 32] and
    [width = height = int(pixel_count ** 0.5) + 1]. *)
Definition layout (bit_length : N) : result (N * N * N) :=
  let pixel_count := ((bit_length + 31) / 32)%N in
  root <- Float64.int_pow_half pixel_count ;;
  let width := (root + 1)%N in
  let height := width in
  Ok (pixel_count, width, height).

(** Line 193:
    [int(binary_data, 2).to_bytes((len(binary_data) + 7) // 8, byteorder='big')]. *)
Definition bytes_of_binary (binary_data : list ascii) : result bytes :=
  v <- int_base2 binary_data ;;
  to_bytes v ((length binary_data + 7) / 8).

Local Close Scope result_scope.

(* ================================================================== *)
(** * The collaborators                                                *)
(* ================================================================== *)

(** The [zstandard] package: [ZstdCompressor().compress] and
    [ZstdDecompressor().decompress], each of which returns or raises. *)
Class Zstandard : Type := {
  zstd_compress : bytes -> result bytes;
  zstd_decompress : bytes -> result bytes
}.

(** The disk and [os.path]: [open(path, "rb").read()], [Image.open(path)]
    (an ['RGBA'] image, as the encoder saves them), [img.save(path)],
    [open(path, "wb")] followed by [f.write(data)], [os.path.basename], the
    first component of [os.path.splitext], and [os.path.join].  Each of the
    four accesses to the disk returns or raises. *)
Class Disk : Type := {
  read_binary : string -> result bytes;
  image_open : string -> result PIL.Image;
  image_save : string -> PIL.Image -> result unit;
  file_write : string -> bytes -> result unit;
  basename : string -> string;
  splitext_root : string -> string;
  path_join : string -> string -> string
}.

(** What the conversion methods rely on, and the spec states about, the
    compression format: a frame is self-delimiting, so that zero bytes after
    it are ignored on decompression. *)
Definition trailing_zeros_ignored (Z : Zstandard) : Prop :=
  forall data frame k,
    zstd_compress data = Ok frame ->
    zstd_decompress (frame ++ repeat x00 k) = Ok data.

(** ** Calls to the outside, recorded in order

    A computation of [M E A] has made the calls of its first component, of
    type [E], and then returned or raised. *)
Section Actions.
Variable E : Type.

Definition M (A : Type) : Type := (list E * result A)%type.

Definition ret {A} (a : A) : M A := ([], Ok a).

Definition raise {A} (e : exn) : M A := ([], Raise e).

Definition bind {A B} (m : M A) (k : A -> M B) : M B :=
  match m with
  | (calls, Ok a) => let '(calls', r) := k a in (calls ++ calls', r)
  | (calls, Raise e) => (calls, Raise e)
  end.

Definition call (ev : E) : M unit := ([ev], Ok tt).

Definition lift {A} (r : result A) : M A := ([], r).

(** [try: body / except Exception as e: handler(e)]. *)
Definition try_except (body : M unit) (handler : exn -> M unit) : M unit :=
  match body with
  | (calls, Ok _) => (calls, Ok tt)
  | (calls, Raise e) => let '(calls', r) := handler e in (calls ++ calls', r)
  end.

Definition calls_of {A} (m : M A) : list E := fst m.

End Actions.

Arguments ret {E A} a.
Arguments raise {E A} e.
Arguments call {E} ev.
Arguments lift {E A} r.
Arguments bind {E A B} m k.
Arguments try_except {E} body handler.
Arguments calls_of {E A} m.

Declare Scope action_scope.
Delimit Scope action_scope with action.
Notation "x <- m ;; k" := (bind m (fun x => k))
  (at level 61, m at next level, right associativity) : action_scope.
Notation "' p <- m ;; k" := (bind m (fun p => k))
  (at level 61, p pattern, m at next level, right associativity) : action_scope.
Notation "m ;; k" := (bind m (fun _ => k))
  (at level 61, right associativity) : action_scope.

Definition is_empty (s : string) : bool := String.eqb s "".

(** [compressed_size / original_size]: a true division. *)
Definition check_division (divisor : nat) : result unit :=
  if (divisor =? 0)%nat then Raise ZeroDivisionError else Ok tt.

Local Open Scope string_scope.
Local Open Scope action_scope.

(* ================================================================== *)
(** * bytemap.py: [compress_data], [decompress_data], [ByteMapApp]     *)
(* ================================================================== *)

Module ByteMapApp.

(** The text put in the status label.  The compression percentage, a float
    printed with two decimals, is left out of the text. *)
Inductive status : Type :=
| image_saved (output_file : string) (original_size compressed_size : nat)
| file_saved (output_file : string).

(** The calls a method makes, in order.  [img_save] and [write_binary]
    record that the method called [img.save] and opened and wrote the output
    file, with these arguments; whether the call returned or raised is the
    disk's answer ([image_save], [file_write]). *)
Inductive event : Type :=
| update_progress (value : N)
| showerror (title message : string)
| showerror_exn (title : string) (e : exn)      (* showerror("Error", str(e)) *)
| showinfo (title message : string)
| logging_error (format : string) (e : exn)
| img_save (output_file : string) (img : PIL.Image)
| write_binary (output_file : string) (data : bytes)
| status_label_config (text : status).

Section Methods.
Context {Z : Zstandard} {D : Disk}.

Definition compress_data (data : bytes) : M event bytes :=
  match zstd_compress data with
  | Ok compressed_data => ret compressed_data
  | Raise e => call (logging_error "Error during compression: %s" e) ;; raise e
  end.

Definition decompress_data (data : bytes) : M event bytes :=
  match zstd_decompress data with
  | Ok decompressed_data => ret decompressed_data
  | Raise e => call (logging_error "Error during decompression: %s" e) ;; raise e
  end.

Definition convert_file_to_image (input_file output_dir : string) : list event :=
  if is_empty input_file || is_empty output_dir then
    [showerror "Error" "Please select a file and output location."]
  else
    calls_of (try_except
      (call (update_progress 0) ;;
       file_data <- lift (read_binary input_file) ;;
       let original_size := length file_data in
       call (update_progress 20) ;;
       compressed_data <- compress_data file_data ;;
       let compressed_size := length compressed_data in
       if (original_size <=? compressed_size)%nat then
         call (showinfo "Info"
                 "Compressed file is not smaller than the original. No file saved.")
       else
         let binary_data := binary_of_bytes compressed_data in
         call (update_progress 50) ;;
         '(pixel_count, width, height) <-
            lift (layout (N.of_nat (length binary_data))) ;;
         img <- lift (create_image_from_binary binary_data width height) ;;
         let base_filename := basename input_file in
         let output_filename := splitext_root base_filename ++ ".bytemap.png" in
         let output_file := path_join output_dir output_filename in
         call (img_save output_file img) ;;
         lift (image_save output_file img) ;;
         lift (check_division original_size) ;;
         call (update_progress 100) ;;
         call (status_label_config
                 (image_saved output_file original_size compressed_size)))
      (fun e =>
         call (logging_error "Error in convert_file_to_image: %s" e) ;;
         call (showerror_exn "Error" e))).

Definition convert_image_to_file (input_file output_dir : string) : list event :=
  if is_empty input_file || is_empty output_dir then
    [showerror "Error" "Please select an image and output location."]
  else
    calls_of (try_except
      (call (update_progress 0) ;;
       img <- lift (image_open input_file) ;;
       let binary_data := create_binary_from_image img in
       call (update_progress 50) ;;
       byte_data <- lift (bytes_of_binary binary_data) ;;
       decompressed_data <- decompress_data byte_data ;;
       let base_filename := basename input_file in
       let output_filename := splitext_root base_filename ++ ".output" in
       let output_file := path_join output_dir output_filename in
       call (write_binary output_file decompressed_data) ;;
       lift (file_write output_file decompressed_data) ;;
       call (update_progress 100) ;;
       call (status_label_config (file_saved output_file)))
      (fun e =>
         call (logging_error "Error in convert_image_to_file: %s" e) ;;
         call (showerror_exn "Error" e))).

End Methods.
End ByteMapApp.

(* ================================================================== *)
(** * bytemap_beta.py: [ConversionWorker]                              *)
(* ================================================================== *)

(** The worker's [binary_to_rgba_pixels], [rgba_pixels_to_binary],
    [create_image_from_binary] and [create_binary_from_image] are, line for
    line, the functions of bytemap.py above, and so are the expressions for
    the bit string, the layout and the bytes; the two conversion methods
    differ in the signals they emit. *)
Module ConversionWorker.

Inductive message : Type :=
| image_converted (original_size compressed_size : nat) (output_file : string)
| file_converted (output_file : string).

Inductive event : Type :=
| progress_emit (value : N)
| finished_emit (text : message) (ok : bool)
| error_emit (text : string)
| error_emit_exn (e : exn)                      (* self.error.emit(str(e)) *)
| logging_error (format : string) (e : exn)
| img_save (output_file : string) (img : PIL.Image)
| write_binary (output_file : string) (data : bytes).

Inductive mode : Type := to_image | to_file.

Section Methods.
Context {Z : Zstandard} {D : Disk}.

Definition compress_data (data : bytes) : M event bytes :=
  match zstd_compress data with
  | Ok compressed_data => ret compressed_data
  | Raise e => call (logging_error "Compression error: {e}" e) ;; raise e
  end.

Definition decompress_data (data : bytes) : M event bytes :=
  match zstd_decompress data with
  | Ok decompressed_data => ret decompressed_data
  | Raise e => call (logging_error "Decompression error: {e}" e) ;; raise e
  end.

Definition convert_to_image (input_file output_dir : string) : M event unit :=
  try_except
    (call (progress_emit 10) ;;
     file_data <- lift (read_binary input_file) ;;
     let original_size := length file_data in
     call (progress_emit 30) ;;
     compressed_data <- compress_data file_data ;;
     let compressed_size := length compressed_data in
     if (original_size <=? compressed_size)%nat then
       call (error_emit "Compressed file is not smaller than the original.")
     else
       let binary_data := binary_of_bytes compressed_data in
       call (progress_emit 60) ;;
       '(pixel_count, width, height) <-
          lift (layout (N.of_nat (length binary_data))) ;;
       img <- lift (create_image_from_binary binary_data width height) ;;
       let base_filename := basename input_file in
       let output_filename := splitext_root base_filename ++ ".bytemap.png" in
       let output_file := path_join output_dir output_filename in
       call (img_save output_file img) ;;
       lift (image_save output_file img) ;;
       lift (check_division original_size) ;;
       call (progress_emit 100) ;;
       call (finished_emit
               (image_converted original_size compressed_size output_file) true))
    (fun e =>
       call (logging_error "Error in convert_to_image: {e}" e) ;;
       call (error_emit_exn e)).

Definition convert_to_file (input_file output_dir : string) : M event unit :=
  try_except
    (call (progress_emit 10) ;;
     img <- lift (image_open input_file) ;;
     call (progress_emit 30) ;;
     let binary_data := create_binary_from_image img in
     call (progress_emit 50) ;;
     byte_data <- lift (bytes_of_binary binary_data) ;;
     call (progress_emit 70) ;;
     decompressed_data <- decompress_data byte_data ;;
     let base_filename := basename input_file in
     let output_filename := splitext_root base_filename ++ ".output" in
     let output_file := path_join output_dir output_filename in
     call (write_binary output_file decompressed_data) ;;
     lift (file_write output_file decompressed_data) ;;
     call (progress_emit 100) ;;
     call (finished_emit (file_converted output_file) true))
    (fun e =>
       call (logging_error "Error in convert_to_file: {e}" e) ;;
       call (error_emit_exn e)).

Definition run (m : mode) (input_file output_dir : string) : list event :=
  calls_of (try_except
    (match m with
     | to_image => convert_to_image input_file output_dir
     | to_file => convert_to_file input_file output_dir
     end)
    (fun e => call (error_emit_exn e))).

End Methods.
End ConversionWorker.

Local Close Scope action_scope.
Local Close Scope string_scope.

(* ================================================================== *)
(** * Notions used to state the properties                             *)
(* ================================================================== *)

(** Bit strings: Python strings made of the characters ['0'] and ['1']. *)
Definition is_bit (c : ascii) : bool := Ascii.eqb c "0" || Ascii.eqb c "1".

Definition is_bits (s : list ascii) : bool := forallb is_bit s.

(** The bit at position [i] of a bit string, counted from the left. *)
Definition bit_at (s : list ascii) (i : nat) : bool :=
  Ascii.eqb (nth i s "0"%char) "1".

(** The unsigned value of a bit string read most significant bit first. *)
Definition bits_value (s : list ascii) : N :=
  fold_left (fun acc c => (2 * acc + (if Ascii.eqb c "1" then 1 else 0))%N) s 0%N.

(** [v] is the 8-bit channel holding bits [[off, off + 8)] of [s], leftmost
    bit most significant. *)
Definition channel_holds (s : list ascii) (off : nat) (v : N) : Prop :=
  (v < 256)%N /\
  forall j, j < 8 -> N.testbit v (N.of_nat (7 - j)) = bit_at s (off + j).

(** The first [m] consecutive chunks of [k] elements of [s]. *)
Fixpoint chunks {A} (m k : nat) (s : list A) : list (list A) :=
  match m with
  | O => []
  | S m' => firstn k s :: chunks m' k (skipn k s)
  end.

(** The plain grouping of a bit string into bytes, 8 bits per byte, each
    byte most significant bit first. *)
Definition group8 (bits : list ascii) : bytes :=
  map (fun w => byte_of_N (bits_value w)) (chunks (length bits / 8) 8 bits).

(** The number of bits that bring a length up to the next multiple of 8. *)
Definition pad8 (n : nat) : nat := (8 - n mod 8) mod 8.

(** The conversion of step 2 of [decode] as the spec words it: pad on the
    right with zero bits up to a multiple of 8, then group. *)
Definition spec_bytes_of_bits (bits : list ascii) : bytes :=
  group8 (bits ++ repeat "0"%char (pad8 (length bits))).

(** What [int(.., 2).to_bytes(..)] computes on any non-empty bit string:
    the grouping of the string filled with zero bits on the left.  The two
    agree on the strings the decoder builds, whose length is a multiple
    of 8. *)
Definition left_padded_grouping (bits : list ascii) : bytes :=
  group8 (repeat "0"%char (pad8 (length bits)) ++ bits).

(** [x ** 0.5] scaled by [t = 2^(52 - e)] and rounded to the nearest integer. *)
Definition rounded_root (x t : N) : N :=
  let q := N.sqrt (x * (t * t))%N in
  if ((2 * q + 1) * (2 * q + 1) <? 4 * (x * (t * t)))%N then (q + 1)%N else q.

(** The byte strings written to disk by a run of [convert_image_to_file]. *)
Definition written_data (calls : list ByteMapApp.event) : list bytes :=
  flat_map (fun ev => match ev with
                      | ByteMapApp.write_binary _ data => [data]
                      | _ => []
                      end) calls.

(** The images saved by a run of [convert_file_to_image], and by a run of
    the worker. *)
Definition saved_images (calls : list ByteMapApp.event) : list PIL.Image :=
  flat_map (fun ev => match ev with
                      | ByteMapApp.img_save _ img => [img]
                      | _ => []
                      end) calls.

Definition worker_saved_images (calls : list ConversionWorker.event)
  : list PIL.Image :=
  flat_map (fun ev => match ev with
                      | ConversionWorker.img_save _ img => [img]
                      | _ => []
                      end) calls.

Definition worker_written_data (calls : list ConversionWorker.event)
  : list bytes :=
  flat_map (fun ev => match ev with
                      | ConversionWorker.write_binary _ data => [data]
                      | _ => []
                      end) calls.

(** The four bytes a pixel stands for, and the pixels of an image as raw
    bytes, in the order R, G, B, A. *)
Definition pixel_bytes (p : pixel) : bytes :=
  let '(r, g, b, a) := p in [byte_of_N r; byte_of_N g; byte_of_N b; byte_of_N a].

Definition pixels_bytes (pixels : list pixel) : bytes :=
  flat_map pixel_bytes pixels.

(** Pixels as an ['RGBA'] image holds them: every channel below 256. *)
Definition rgba_pixel (p : pixel) : bool :=
  let '(r, g, b, a) := p in
  ((r <? 256) && (g <? 256) && (b <? 256) && (a <? 256))%N.

Definition rgba_pixels (pixels : list pixel) : bool := forallb rgba_pixel pixels.

(** [int(sqrt(float(n)))] computed with the kernel's binary64 numbers and
    their correctly rounded [sqrt], for [n < 2^63]: the reference the
    integer model of the nearest double is compared with. *)
Definition prim_int_pow_half (n : N) : Z :=
  let f := PrimFloat.sqrt (PrimFloat.of_uint63 (Uint63.of_Z (Z.of_N n))) in
  match Prim2SF f with
  | S754_finite _ m e =>
      if (e <? 0)%Z then Z.shiftr (Zpos m) (- e) else Z.shiftl (Zpos m) e
  | _ => 0%Z
  end.

Definition float_samples : list N :=
  [0; 1; 2; 3; 4; 15; 16; 17; 99; 1000; 2 ^ 52 - 1; 2 ^ 52;
   2 ^ 52 + 2 ^ 27 - 1; 2 ^ 52 + 2 ^ 27; 2 ^ 53 - 1; 2 ^ 53 + 1;
   2 ^ 54 - 1; 2 ^ 58 - 2 ^ 30; 2 ^ 58 - 2 ^ 30 + 2; 2 ^ 58 - 1; 2 ^ 58]%N.

(** Python strings and bytes objects have fewer than [2^63] items
    ([sys.maxsize] on a 64-bit build). *)
Definition max_len : N := (2 ^ 63)%N.

(* ================================================================== *)
(** * A small instance of the collaborators, for the examples          *)
(* ================================================================== *)

Module Toy.

(** A self-delimiting format: tag [x02] and a byte stand for four copies of
    that byte; otherwise every byte is preceded by [x01] and the frame ends
    with [x00]. *)
Fixpoint escape (data : bytes) : bytes :=
  match data with
  | [] => [x00]
  | b :: data' => x01 :: b :: escape data'
  end.

Definition compress (data : bytes) : bytes :=
  match data with
  | [a; b; c; d] =>
      if Byte.eqb a b && Byte.eqb b c && Byte.eqb c d then [x02; a]
      else escape data
  | _ => escape data
  end.

Fixpoint unescape (frame : bytes) : result bytes :=
  match frame with
  | tag :: rest =>
      if Byte.eqb tag x00 then Ok []
      else if Byte.eqb tag x01 then
        match rest with
        | b :: rest' =>
            match unescape rest' with
            | Ok data => Ok (b :: data)
            | Raise e => Raise e
            end
        | [] => Raise ZstdError
        end
      else Raise ZstdError
  | [] => Raise ZstdError
  end.

Definition decompress (frame : bytes) : result bytes :=
  match frame with
  | tag :: a :: _ =>
      if Byte.eqb tag x02 then Ok [a; a; a; a] else unescape frame
  | _ => unescape frame
  end.

Definition zstd : Zstandard :=
  {| zstd_compress := fun data => Ok (compress data);
     zstd_decompress := decompress |}.

(** A disk on which every path reads as [file] and opens as [image], and
    every save and write succeeds. *)
Definition disk (file : result bytes) (image : result PIL.Image) : Disk :=
  {| read_binary := fun _ => file;
     image_open := fun _ => image;
     image_save := fun _ _ => Ok tt;
     file_write := fun _ _ => Ok tt;
     basename := fun p => p;
     splitext_root := fun p => p;
     path_join := fun d f => String.append d (String.append "/" f) |}.

(** The same disk when it cannot be written: every save and every write
    raises [OSError]. *)
Definition read_only_disk (file : result bytes) (image : result PIL.Image)
  : Disk :=
  {| read_binary := fun _ => file;
     image_open := fun _ => image;
     image_save := fun _ _ => Raise OSError;
     file_write := fun _ _ => Raise OSError;
     basename := fun p => p;
     splitext_root := fun p => p;
     path_join := fun d f => String.append d (String.append "/" f) |}.

End Toy.

(** Inputs of the examples. *)
Definition sample_payload : bytes := [x41; x42; x43; x44; x45].

Definition sample_bits_19 : list ascii :=
  list_ascii_of_string "1111111100000000101".

Definition sample_bits_25 : list ascii :=
  list_ascii_of_string "0000000111111111000000101".

(** The body of the loop of [binary_to_rgba_pixels], as a function of the
    chunk. *)
Definition pixel_of_chunk (chunk : list ascii) : result pixel :=
  rbind (int_base2 (slice 0 8 chunk)) (fun r =>
  rbind (int_base2 (slice 8 16 chunk)) (fun g =>
  rbind (int_base2 (slice 16 24 chunk)) (fun b =>
  rbind (int_base2 (slice 24 32 chunk)) (fun a =>
  Ok (r, g, b, a))))).

Fixpoint str_eqb (s t : list ascii) : bool :=
  match s, t with
  | [], [] => true
  | c :: s', d :: t' => Ascii.eqb c d && str_eqb s' t'
  | _, _ => false
  end.

(** Everything the proofs need to know about one 8-bit group, as a check
    that can be run on each of the 256 groups. *)
Definition group_ok (w : list ascii) : bool :=
  match int_base2 w with
  | Ok v =>
      (v <? 256)%N
      && (v =? bits_value w)%N
      && str_eqb (format_08b v) w
      && forallb (fun j => Bool.eqb (N.testbit v (N.of_nat (7 - j))) (bit_at w j))
                 (seq 0 8)
  | Raise _ => false
  end.

(* ================================================================== *)
(** * Lists, loops and slices                                          *)
(* ================================================================== *)

Lemma mapM_map {A B C} (f : B -> result C) (g : A -> B) (l : list A) :
  mapM f (map g l) = mapM (fun x => f (g x)) l.
Proof.
  induction l as [|x l IH]; simpl; [reflexivity|].
  now rewrite IH.
Qed.

Lemma range_from_0 (n k : nat) :
  range 0 n k = map (fun j => j * k) (seq 0 ((n + (k - 1)) / k)).
Proof.
  unfold range. now rewrite Nat.sub_0_r.
Qed.

Lemma mapM_seq_chunks {A B} (f : list A -> result B) (k : nat) (s : list A) :
  forall m a,
    mapM (fun j => f (slice (j * k) (j * k + k) s)) (seq a m)
    = mapM f (chunks m k (skipn (a * k) s)).
Proof.
  induction m as [|m IH]; intros a; simpl; [reflexivity|].
  unfold slice at 1.
  replace (a * k + k - a * k) with k by lia.
  rewrite IH, skipn_skipn.
  now replace (k + a * k) with (S a * k) by lia.
Qed.

(** A loop [for i in range(0, n, k)] over the slices [s[i:i+k]] visits the
    consecutive chunks of [s]. *)
Lemma mapM_range_chunks {A B} (f : list A -> result B) (k n : nat) (s : list A) :
  mapM (fun i => f (slice i (i + k) s)) (range 0 n k)
  = mapM f (chunks ((n + (k - 1)) / k) k s).
Proof.
  rewrite range_from_0, mapM_map.
  exact (mapM_seq_chunks f k s _ 0).
Qed.

Lemma chunks_length {A} (m k : nat) (s : list A) : length (chunks m k s) = m.
Proof.
  revert s; induction m as [|m IH]; intros s; simpl; [reflexivity|].
  now rewrite IH.
Qed.

Lemma chunks_app {A} (m k : nat) (c s : list A) :
  length c = k -> chunks (S m) k (c ++ s) = c :: chunks m k s.
Proof.
  intros <-. simpl.
  rewrite firstn_app, skipn_app, Nat.sub_diag, firstn_all, skipn_all.
  simpl. now rewrite app_nil_r.
Qed.

Lemma chunks_nth {A} (k : nat) (s : list A) :
  forall m i, i < m -> nth i (chunks m k s) [] = slice (i * k) (i * k + k) s.
Proof.
  intros m; revert s; induction m as [|m IH]; intros s i Hi; [lia|].
  destruct i as [|i]; simpl.
  - unfold slice. now rewrite Nat.sub_0_r.
  - rewrite IH by lia. unfold slice.
    rewrite skipn_skipn.
    replace (k + i * k + k - (k + i * k)) with k by lia.
    replace (i * k + k - i * k) with k by lia.
    now replace (i * k + k) with (k + i * k) by lia.
Qed.

Lemma mapM_nth {A B} (f : A -> result B) (l : list A) (r : list B) (d : A) (d' : B) :
  mapM f l = Ok r ->
  forall i, i < length l -> f (nth i l d) = Ok (nth i r d').
Proof.
  revert r; induction l as [|x l IH]; simpl; intros r H i Hi; [lia|].
  destruct (f x) as [y|e] eqn:Hx; [|discriminate].
  destruct (mapM f l) as [ys|e]; [|discriminate].
  injection H as <-.
  destruct i as [|i]; simpl; [exact Hx|].
  apply IH; [reflexivity | lia].
Qed.

Lemma nth_slice {A} (a b : nat) (s : list A) (j : nat) (d : A) :
  j < b - a -> nth j (slice a b s) d = nth (a + j) s d.
Proof.
  intros Hj. unfold slice.
  rewrite nth_firstn, nth_skipn.
  destruct (Nat.ltb_spec j (b - a)); [reflexivity | lia].
Qed.

(* ================================================================== *)
(** * Bit strings, [int(.., 2)] and [format(.., '08b')]                *)
(* ================================================================== *)

Lemma is_bit_cases (c : ascii) : is_bit c = true -> c = "0"%char \/ c = "1"%char.
Proof.
  unfold is_bit. intros H. apply orb_true_iff in H.
  destruct H as [H|H]; apply Ascii.eqb_eq in H; auto.
Qed.

Lemma is_bits_app (s t : list ascii) : is_bits (s ++ t) = is_bits s && is_bits t.
Proof. apply forallb_app. Qed.

Lemma is_bits_cons (c : ascii) (s : list ascii) :
  is_bits (c :: s) = is_bit c && is_bits s.
Proof. reflexivity. Qed.

Lemma is_bits_repeat_0 (n : nat) : is_bits (repeat "0"%char n) = true.
Proof. induction n; simpl; auto. Qed.

Lemma is_bits_firstn (n : nat) (s : list ascii) :
  is_bits s = true -> is_bits (firstn n s) = true.
Proof.
  intros H. rewrite <- (firstn_skipn n s), is_bits_app in H.
  now apply andb_true_iff in H.
Qed.

Lemma is_bits_skipn (n : nat) (s : list ascii) :
  is_bits s = true -> is_bits (skipn n s) = true.
Proof.
  intros H. rewrite <- (firstn_skipn n s), is_bits_app in H.
  now apply andb_true_iff in H.
Qed.

Lemma str_eqb_eq (s t : list ascii) : str_eqb s t = true -> s = t.
Proof.
  revert t; induction s as [|c s IH]; intros [|d t]; simpl; try discriminate; auto.
  intros H. apply andb_true_iff in H. destruct H as [H1 H2].
  apply Ascii.eqb_eq in H1. subst d. f_equal. now apply IH.
Qed.

(** Every group of 8 bits passes the check. *)
Lemma group_ok_all (w : list ascii) :
  length w = 8 -> is_bits w = true -> group_ok w = true.
Proof.
  intros Hlen Hbits.
  do 9 (destruct w as [|? w]; try discriminate Hlen).
  repeat rewrite is_bits_cons in Hbits.
  repeat match type of Hbits with
         | (_ && _) = true =>
             apply andb_true_iff in Hbits;
             let H := fresh "Hb" in destruct Hbits as [H Hbits];
             apply is_bit_cases in H
         end.
  repeat match goal with
         | H : _ = "0"%char \/ _ = "1"%char |- _ => destruct H; subst
         end; vm_compute; reflexivity.
Qed.

(** An 8-bit group read by [int(.., 2)] and printed back by ['08b'] is
    unchanged, and its value holds the group's bits, leftmost first. *)
Lemma int_base2_group (w : list ascii) :
  length w = 8 -> is_bits w = true ->
  exists v, int_base2 w = Ok v /\ v = bits_value w /\ format_08b v = w
            /\ channel_holds w 0 v.
Proof.
  intros Hlen Hbits.
  pose proof (group_ok_all w Hlen Hbits) as H.
  unfold group_ok in H.
  destruct (int_base2 w) as [v|e]; [|discriminate].
  apply andb_true_iff in H. destruct H as [H Htest].
  apply andb_true_iff in H. destruct H as [H Hfmt].
  apply andb_true_iff in H. destruct H as [Hlt Hval].
  exists v. split; [reflexivity|].
  split; [now apply N.eqb_eq|].
  split; [now apply str_eqb_eq|].
  split; [now apply N.ltb_lt|].
  intros j Hj.
  rewrite forallb_forall in Htest.
  apply eqb_prop, Htest, in_seq. lia.
Qed.

Lemma chunk_split (c : list ascii) :
  length c = 32 ->
  c = slice 0 8 c ++ slice 8 16 c ++ slice 16 24 c ++ slice 24 32 c
  /\ length (slice 0 8 c) = 8 /\ length (slice 8 16 c) = 8
  /\ length (slice 16 24 c) = 8 /\ length (slice 24 32 c) = 8.
Proof.
  intros Hlen.
  do 33 (destruct c as [|? c]; try discriminate Hlen).
  repeat split; reflexivity.
Qed.

Lemma is_bits_slice (a b : nat) (s : list ascii) :
  is_bits s = true -> is_bits (slice a b s) = true.
Proof.
  intros H. unfold slice. now apply is_bits_firstn, is_bits_skipn.
Qed.

Lemma channel_holds_slice (s : list ascii) (a : nat) (v : N) :
  channel_holds (slice a (a + 8) s) 0 v -> channel_holds s a v.
Proof.
  intros [Hlt Hbit]. split; [exact Hlt|].
  intros j Hj. rewrite (Hbit j Hj). unfold bit_at.
  now rewrite nth_slice by lia.
Qed.

(** One chunk of 32 bits gives one pixel, whose four channels hold the four
    successive groups of 8 bits; printing the pixel gives the chunk back. *)
Lemma pixel_of_chunk_ok (c : list ascii) :
  length c = 32 -> is_bits c = true ->
  exists r g b a,
    pixel_of_chunk c = Ok (r, g, b, a)
    /\ format_08b r ++ format_08b g ++ format_08b b ++ format_08b a = c
    /\ channel_holds c 0 r /\ channel_holds c 8 g
    /\ channel_holds c 16 b /\ channel_holds c 24 a.
Proof.
  intros Hlen Hbits.
  destruct (chunk_split c Hlen) as (Hc & L0 & L1 & L2 & L3).
  destruct (int_base2_group _ L0 (is_bits_slice 0 8 _ Hbits)) as (r & Hr & _ & Fr & Cr).
  destruct (int_base2_group _ L1 (is_bits_slice 8 16 _ Hbits)) as (g & Hg & _ & Fg & Cg).
  destruct (int_base2_group _ L2 (is_bits_slice 16 24 _ Hbits)) as (b & Hb & _ & Fb & Cb).
  destruct (int_base2_group _ L3 (is_bits_slice 24 32 _ Hbits)) as (a & Ha & _ & Fa & Ca).
  exists r, g, b, a.
  split.
  { unfold pixel_of_chunk. rewrite Hr, Hg, Hb, Ha. reflexivity. }
  split.
  { rewrite Fr, Fg, Fb, Fa. symmetry. exact Hc. }
  repeat split;
    first [ apply (channel_holds_slice c 0), Cr
          | apply (channel_holds_slice c 8), Cg
          | apply (channel_holds_slice c 16), Cb
          | apply (channel_holds_slice c 24), Ca ].
Qed.

(** The packing loop over a bit string of [32 * m] bits, and what printing
    its pixels gives. *)
Lemma pack_chunks (m : nat) :
  forall s, length s = 32 * m -> is_bits s = true ->
  exists pixels,
    mapM pixel_of_chunk (chunks m 32 s) = Ok pixels
    /\ length pixels = m
    /\ rgba_pixels_to_binary pixels = s.
Proof.
  induction m as [|m IH]; intros s Hlen Hbits.
  - exists []. destruct s; [|discriminate]. repeat split.
  - assert (L1 : length (firstn 32 s) = 32) by (rewrite length_firstn; lia).
    assert (L2 : length (skipn 32 s) = 32 * m) by (rewrite length_skipn; lia).
    destruct (pixel_of_chunk_ok _ L1 (is_bits_firstn 32 _ Hbits))
      as (r & g & b & a & Hp & Hf & _).
    destruct (IH _ L2 (is_bits_skipn 32 _ Hbits)) as (pixels & Hm & Hl & Hu).
    exists ((r, g, b, a) :: pixels).
    split; [cbn [mapM chunks]; now rewrite Hp, Hm|].
    split; [simpl; now rewrite Hl|].
    unfold rgba_pixels_to_binary in *. cbn [map concat].
    rewrite Hu, Hf. apply firstn_skipn.
Qed.

(** [binary_to_rgba_pixels] in terms of the chunks of the padded string. *)
Lemma binary_to_rgba_pixels_chunks (binary_data : list ascii) :
  let padding_length := (32 - length binary_data mod 32) mod 32 in
  let padded := binary_data ++ repeat "0"%char padding_length in
  binary_to_rgba_pixels binary_data
  = rbind (mapM pixel_of_chunk (chunks (length padded / 32) 32 padded))
          (fun pixels => Ok (pixels, padding_length)).
Proof.
  intros padding_length padded.
  assert (Hp : length padded mod 32 = 0).
  { unfold padded, padding_length. rewrite length_app, repeat_length.
    pose proof (Nat.mod_upper_bound (length binary_data) 32 ltac:(lia)) as Hm.
    pose proof (Nat.div_mod_eq (length binary_data) 32) as Hd.
    destruct (Nat.eq_dec (length binary_data mod 32) 0) as [E0|E0].
    - rewrite E0. simpl. rewrite Nat.add_0_r. exact E0.
    - rewrite (Nat.mod_small (32 - _) 32) by lia.
      replace (length binary_data + (32 - length binary_data mod 32))
        with ((length binary_data / 32 + 1) * 32) by lia.
      apply Nat.Div0.mod_mul. }
  assert (E : (length padded + (32 - 1)) / 32 = length padded / 32).
  { pose proof (Nat.div_mod_eq (length padded) 32) as Hd.
    rewrite Hp, Nat.add_0_r in Hd.
    rewrite Hd at 1.
    replace (32 * (length padded / 32) + (32 - 1))
      with (31 + (length padded / 32) * 32) by lia.
    rewrite Nat.div_add by lia. reflexivity. }
  pose proof (mapM_range_chunks pixel_of_chunk 32 (length padded) padded) as R.
  rewrite E in R. rewrite <- R. reflexivity.
Qed.

(** The arithmetic of the padding to a multiple of 32. *)
Lemma padding_32 (n : nat) :
  let p := (32 - n mod 32) mod 32 in
  (n + p) mod 32 = 0 /\ n + p = 32 * ((n + p) / 32) /\ (n mod 32 = 0 -> p = 0).
Proof.
  intros p.
  pose proof (Nat.mod_upper_bound n 32 ltac:(lia)) as Hm.
  pose proof (Nat.div_mod_eq n 32) as Hd.
  assert (H0 : (n + p) mod 32 = 0).
  { unfold p. destruct (Nat.eq_dec (n mod 32) 0) as [E0|E0].
    - rewrite E0. simpl. now rewrite Nat.add_0_r.
    - rewrite (Nat.mod_small (32 - _) 32) by lia.
      replace (n + (32 - n mod 32)) with ((n / 32 + 1) * 32) by lia.
      apply Nat.Div0.mod_mul. }
  split; [exact H0|]. split.
  - pose proof (Nat.div_mod_eq (n + p) 32). lia.
  - intros E0. unfold p. now rewrite E0.
Qed.

(** Packing a bit string succeeds, uses one pixel per 32 bits of the padded
    string, and printing the pixels gives the padded string back. *)
Lemma pack_unpack (binary_data : list ascii) :
  is_bits binary_data = true ->
  let padding_length := (32 - length binary_data mod 32) mod 32 in
  exists pixels,
    binary_to_rgba_pixels binary_data = Ok (pixels, padding_length)
    /\ 32 * length pixels = length binary_data + padding_length
    /\ rgba_pixels_to_binary pixels = binary_data ++ repeat "0"%char padding_length.
Proof.
  intros Hbits padding_length.
  pose proof (binary_to_rgba_pixels_chunks binary_data) as Hc. cbv zeta in Hc.
  fold padding_length in Hc.
  set (padded := binary_data ++ repeat "0"%char padding_length) in *.
  destruct (padding_32 (length binary_data)) as (_ & Hlen & _).
  fold padding_length in Hlen.
  assert (Lp : length padded = length binary_data + padding_length)
    by (unfold padded; now rewrite length_app, repeat_length).
  rewrite <- Lp in Hlen.
  assert (Bp : is_bits padded = true)
    by (unfold padded; now rewrite is_bits_app, Hbits, is_bits_repeat_0).
  destruct (pack_chunks (length padded / 32) padded Hlen Bp) as (pixels & Hm & Hl & Hu).
  exists pixels. rewrite Hc, Hm. simpl.
  repeat split; [lia | exact Hu].
Qed.

Lemma rgba_pixels_to_binary_app (p q : list pixel) :
  rgba_pixels_to_binary (p ++ q) = rgba_pixels_to_binary p ++ rgba_pixels_to_binary q.
Proof.
  unfold rgba_pixels_to_binary. now rewrite map_app, concat_app.
Qed.

Lemma rgba_pixels_to_binary_zeros (k : nat) :
  rgba_pixels_to_binary (repeat (0, 0, 0, 0)%N k) = repeat "0"%char (32 * k).
Proof.
  induction k as [|k IH]; [reflexivity|].
  replace (32 * S k) with (32 + 32 * k) by lia.
  rewrite repeat_app, <- IH. reflexivity.
Qed.

(** ** Values of bit strings *)

Lemma bits_value_from (s : list ascii) : forall acc,
  fold_left (fun a c => (2 * a + (if Ascii.eqb c "1" then 1 else 0))%N) s acc
  = (acc * 2 ^ N.of_nat (length s) + bits_value s)%N.
Proof.
  unfold bits_value.
  set (f := fun a c => (2 * a + (if Ascii.eqb c "1" then 1 else 0))%N).
  induction s as [|c s IH]; intros acc; cbn [fold_left].
  - simpl. lia.
  - rewrite (IH (f acc c)), (IH (f 0%N c)).
    replace (N.of_nat (length (c :: s))) with (N.succ (N.of_nat (length s)))
      by (simpl length; lia).
    rewrite N.pow_succ_r'. unfold f. lia.
Qed.

Lemma bits_value_app (s t : list ascii) :
  bits_value (s ++ t) = (bits_value s * 2 ^ N.of_nat (length t) + bits_value t)%N.
Proof.
  unfold bits_value at 1. rewrite fold_left_app.
  fold (bits_value s). apply bits_value_from.
Qed.

Lemma bits_value_bound (s : list ascii) :
  (bits_value s < 2 ^ N.of_nat (length s))%N.
Proof.
  induction s as [|c s IH] using rev_ind; [vm_compute; reflexivity|].
  rewrite bits_value_app, length_app. simpl length.
  replace (N.of_nat (length s + 1)) with (N.succ (N.of_nat (length s))) by lia.
  rewrite N.pow_succ_r'. change (2 ^ N.of_nat 1)%N with 2%N.
  assert (bits_value [c] < 2)%N by (unfold bits_value; simpl; destruct (Ascii.eqb c "1"); lia).
  lia.
Qed.

Lemma bits_value_zeros (k : nat) : bits_value (repeat "0"%char k) = 0%N.
Proof.
  induction k as [|k IH]; [reflexivity|].
  change (repeat "0"%char (S k)) with (["0"%char] ++ repeat "0"%char k).
  rewrite bits_value_app, IH. reflexivity.
Qed.

Lemma int2_from_bits (s : list ascii) : forall acc,
  is_bits s = true ->
  int2_from acc s
  = Ok (fold_left (fun a c => (2 * a + (if Ascii.eqb c "1" then 1 else 0))%N) s acc).
Proof.
  induction s as [|c s IH]; intros acc H; [reflexivity|].
  rewrite is_bits_cons in H. apply andb_true_iff in H. destruct H as [Hc Hs].
  simpl. destruct (is_bit_cases c Hc); subst c; simpl; now rewrite IH.
Qed.

Lemma int_base2_bits (s : list ascii) :
  is_bits s = true -> s <> [] -> int_base2 s = Ok (bits_value s).
Proof.
  intros H Hne. destruct s as [|c s]; [congruence|].
  unfold int_base2. now rewrite int2_from_bits.
Qed.

(** ** Bits to bytes *)

Lemma chunks_snoc {A} (k : nat) (w : list A) :
  length w = k ->
  forall m s, length s = k * m -> chunks (S m) k (s ++ w) = chunks m k s ++ [w].
Proof.
  intros Hw. induction m as [|m IH]; intros s Hs.
  - destruct s; [|simpl in Hs; lia]. simpl.
    rewrite <- Hw. now rewrite firstn_all.
  - rewrite <- (firstn_skipn k s), <- app_assoc.
    assert (L1 : length (firstn k s) = k) by (rewrite length_firstn; lia).
    assert (L2 : length (skipn k s) = k * m) by (rewrite length_skipn; lia).
    rewrite (chunks_app (S m) k _ _ L1), (chunks_app m k _ _ L1), (IH _ L2).
    reflexivity.
Qed.

(** The big-endian bytes of the value of a string of [8 * m] bits are its
    groups of 8 bits. *)
Lemma big_endian_group8 (m : nat) :
  forall s, length s = 8 * m -> big_endian m (bits_value s) = group8 s.
Proof.
  induction m as [|m IH]; intros s Hs.
  - destruct s; [reflexivity | simpl in Hs; lia].
  - set (s' := firstn (8 * m) s). set (w := skipn (8 * m) s).
    assert (L1 : length s' = 8 * m) by (unfold s'; rewrite length_firstn; lia).
    assert (L2 : length w = 8) by (unfold w; rewrite length_skipn; lia).
    assert (Es : s = s' ++ w) by (symmetry; apply firstn_skipn).
    pose proof (bits_value_bound w) as Bw. rewrite L2 in Bw.
    change (2 ^ N.of_nat 8)%N with 256%N in Bw.
    assert (Ev : bits_value s = (bits_value s' * 256 + bits_value w)%N).
    { rewrite Es at 1. rewrite bits_value_app, L2. reflexivity. }
    cbn [big_endian]. rewrite Ev.
    replace ((bits_value s' * 256 + bits_value w) / 256)%N with (bits_value s')
      by (apply N.div_unique with (r := bits_value w); lia).
    replace ((bits_value s' * 256 + bits_value w) mod 256)%N with (bits_value w)
      by (apply N.mod_unique with (q := bits_value s'); lia).
    rewrite (IH s' L1).
    unfold group8. rewrite Hs, L1.
    replace (8 * S m / 8) with (S m) by (apply Nat.div_unique_exact; lia).
    replace (8 * m / 8) with m by (apply Nat.div_unique_exact; lia).
    rewrite Es, (chunks_snoc 8 w L2 m s' L1), map_app. reflexivity.
Qed.

Lemma pad8_spec (n : nat) : n + pad8 n = 8 * ((n + 7) / 8) /\ (n mod 8 = 0 -> pad8 n = 0).
Proof.
  unfold pad8.
  pose proof (Nat.mod_upper_bound n 8 ltac:(lia)) as Hm.
  pose proof (Nat.div_mod_eq n 8) as Hd.
  split; [|intros E; now rewrite E].
  destruct (Nat.eq_dec (n mod 8) 0) as [E0|E0].
  - rewrite E0. change ((8 - 0) mod 8) with 0.
    rewrite <- (Nat.div_unique (n + 7) 8 (n / 8) 7); lia.
  - rewrite (Nat.mod_small (8 - _) 8) by lia.
    rewrite <- (Nat.div_unique (n + 7) 8 (n / 8 + 1) (n mod 8 - 1)); lia.
Qed.

(** What line 193 computes on a non-empty bit string: the groups of 8 bits
    of the string filled with zero bits on the left. *)
Lemma bytes_of_binary_bits (bits : list ascii) :
  is_bits bits = true -> bits <> [] ->
  bytes_of_binary bits = Ok (left_padded_grouping bits).
Proof.
  intros Hb Hne. unfold bytes_of_binary, left_padded_grouping.
  rewrite (int_base2_bits bits Hb Hne). cbn [rbind].
  destruct (pad8_spec (length bits)) as [Hp _].
  set (m := (length bits + 7) / 8) in *.
  unfold to_bytes.
  assert (Hlt : (bits_value bits <? 256 ^ N.of_nat m)%N = true).
  { apply N.ltb_lt.
    apply N.lt_le_trans with (2 ^ N.of_nat (length bits))%N; [apply bits_value_bound|].
    change 256%N with (2 ^ 8)%N. rewrite <- N.pow_mul_r.
    apply N.pow_le_mono_r; lia. }
  rewrite Hlt. f_equal.
  rewrite <- (big_endian_group8 m).
  - now rewrite bits_value_app, bits_value_zeros.
  - rewrite length_app, repeat_length. lia.
Qed.

(** ** Bytes to bits *)

Lemma format_byte (x : byte) :
  length (format_08b (Byte.to_N x)) = 8
  /\ is_bits (format_08b (Byte.to_N x)) = true
  /\ byte_of_N (bits_value (format_08b (Byte.to_N x))) = x.
Proof. destruct x; vm_compute; repeat split. Qed.

Lemma binary_of_bytes_cons (x : byte) (d : bytes) :
  binary_of_bytes (x :: d) = format_08b (Byte.to_N x) ++ binary_of_bytes d.
Proof. reflexivity. Qed.

Lemma binary_of_bytes_app (d e : bytes) :
  binary_of_bytes (d ++ e) = binary_of_bytes d ++ binary_of_bytes e.
Proof. unfold binary_of_bytes. now rewrite map_app, concat_app. Qed.

Lemma binary_of_bytes_length (d : bytes) : length (binary_of_bytes d) = 8 * length d.
Proof.
  induction d as [|x d IH]; [reflexivity|].
  rewrite binary_of_bytes_cons, length_app, IH.
  destruct (format_byte x) as (-> & _). simpl. lia.
Qed.

Lemma binary_of_bytes_is_bits (d : bytes) : is_bits (binary_of_bytes d) = true.
Proof.
  induction d as [|x d IH]; [reflexivity|].
  rewrite binary_of_bytes_cons, is_bits_app, IH.
  destruct (format_byte x) as (_ & -> & _). reflexivity.
Qed.

Lemma binary_of_bytes_zeros (k : nat) :
  binary_of_bytes (repeat x00 k) = repeat "0"%char (8 * k).
Proof.
  induction k as [|k IH]; [reflexivity|].
  replace (8 * S k) with (8 + 8 * k) by lia.
  rewrite repeat_app, <- IH. reflexivity.
Qed.

Lemma group8_binary_of_bytes (d : bytes) : group8 (binary_of_bytes d) = d.
Proof.
  unfold group8. rewrite binary_of_bytes_length.
  replace (8 * length d / 8) with (length d)
    by (apply Nat.div_unique_exact; lia).
  induction d as [|x d IH]; [reflexivity|].
  destruct (format_byte x) as (L & _ & V).
  rewrite binary_of_bytes_cons. cbn [length].
  rewrite (chunks_app (length d) 8 _ _ L). cbn [map].
  now rewrite V, IH.
Qed.

(** Reading back the bits of a non-empty byte string gives the bytes. *)
Lemma bytes_of_binary_of_bytes (d : bytes) :
  d <> [] -> bytes_of_binary (binary_of_bytes d) = Ok d.
Proof.
  intros Hne.
  rewrite bytes_of_binary_bits.
  - unfold left_padded_grouping. rewrite binary_of_bytes_length.
    destruct (pad8_spec (8 * length d)) as [_ H0].
    rewrite H0 by (rewrite Nat.mul_comm; apply Nat.Div0.mod_mul).
    simpl. now rewrite group8_binary_of_bytes.
  - apply binary_of_bytes_is_bits.
  - intros E. apply (f_equal (@length _)) in E.
    rewrite binary_of_bytes_length in E. destruct d; [congruence | simpl in E; lia].
Qed.

(* ================================================================== *)
(** * The floating-point square root                                   *)
(* ================================================================== *)

Module Float64Facts.
Import Float64.
Local Open Scope N_scope.

Lemma float_of_int_small (n : N) : n < 2 ^ 53 -> float_of_int n = Ok n.
Proof.
  intros Hn. unfold float_of_int.
  assert (Hl : N.log2 n <= 52).
  { destruct (N.eq_dec n 0) as [->|Hz]; [simpl; lia|].
    assert (N.log2 n < 53) by (apply N.log2_lt_pow2; lia). lia. }
  replace (N.log2 n - 52) with 0 by lia. cbn [N.eqb].
  assert (Hx : (1024 <=? N.log2 n) = false) by (apply N.leb_gt; lia).
  now rewrite Hx.
Qed.

Lemma pow_half_scaled (x : N) :
  0 < x -> N.log2 x / 2 <= 52 ->
  int_of_float (pow_half x)
  = rounded_root x (2 ^ (52 - N.log2 x / 2)) / 2 ^ (52 - N.log2 x / 2).
Proof.
  intros Hx He. unfold pow_half, int_of_float.
  destruct (N.eqb_spec x 0) as [E|_]; [lia|].
  replace (N.log2 x / 2 - 52) with 0 by lia.
  rewrite N.mul_0_r, !N.shiftr_0_r, !N.shiftl_0_r.
  rewrite !N.shiftl_mul_pow2, N.shiftr_div_pow2.
  set (s := 52 - N.log2 x / 2).
  replace (2 ^ (2 * s)) with (2 ^ s * 2 ^ s) by (rewrite <- N.pow_add_r; f_equal; lia).
  unfold rounded_root.
  replace (4 * x * (2 ^ s * 2 ^ s)) with (4 * (x * (2 ^ s * 2 ^ s))) by lia.
  destruct (_ <? _); reflexivity.
Qed.

Lemma rounded_root_lower (x t k : N) :
  0 < t -> k * k <= x -> k <= rounded_root x t / t.
Proof.
  intros Ht Hk. apply N.div_le_lower_bound; [lia|].
  unfold rounded_root.
  pose proof (N.sqrt_spec' (x * (t * t))) as [_ Hq].
  set (q := N.sqrt (x * (t * t))) in *.
  assert (t * k <= q) by nia.
  destruct (_ <? _); lia.
Qed.

Lemma rounded_root_up (x t k : N) :
  0 < t -> x < k * k -> t * (k * k - x) < k -> k <= rounded_root x t / t.
Proof.
  intros Ht Hx Hd. apply N.div_le_lower_bound; [lia|].
  unfold rounded_root.
  pose proof (N.sqrt_spec' (x * (t * t))) as [Hq1 Hq2].
  set (q := N.sqrt (x * (t * t))) in *.
  set (d := k * k - x) in *.
  assert (Ex : x + d = k * k) by lia.
  assert (ES : x * (t * t) + t * (t * d) = (t * k) * (t * k)) by nia.
  assert (H1 : t * (t * d) + t <= t * k) by nia.
  assert (Hlt : q < t * k) by nia.
  assert (Hge : t * k <= q + 1).
  { destruct (N.le_gt_cases (t * k) (q + 1)) as [|Hc]; [assumption|exfalso].
    assert (q + 2 <= t * k) by lia.
    assert ((q + 2) * (q + 2) <= (t * k) * (t * k)) by nia.
    nia. }
  assert (Hq : q + 1 = t * k) by lia.
  assert (Hr : ((2 * q + 1) * (2 * q + 1) <? 4 * (x * (t * t))) = true).
  { apply N.ltb_lt. nia. }
  rewrite Hr. lia.
Qed.

Lemma rounded_root_upper (x t k : N) :
  0 < t -> x < (k + 1) * (k + 1) -> k + 1 <= t -> rounded_root x t / t <= k.
Proof.
  intros Ht Hx Hk.
  assert (rounded_root x t / t < k + 1); [|lia].
  apply N.Div0.div_lt_upper_bound.
  unfold rounded_root.
  pose proof (N.sqrt_spec' (x * (t * t))) as [Hq1 Hq2].
  set (q := N.sqrt (x * (t * t))) in *.
  assert (Hlt : q < t * (k + 1)) by nia.
  destruct (N.ltb_spec ((2 * q + 1) * (2 * q + 1)) (4 * (x * (t * t)))) as [Hr|Hr]; [|lia].
  destruct (N.eq_dec (q + 1) (t * (k + 1))) as [E|E]; [exfalso|lia].
  assert (x + 1 <= (k + 1) * (k + 1)) by lia.
  assert (x * (t * t) + t * t <= (q + 1) * (q + 1)) by nia.
  nia.
Qed.

Lemma log2_half_bound (x : N) :
  0 < x -> N.sqrt x < 2 ^ (N.log2 x / 2 + 1).
Proof.
  intros Hx.
  pose proof (N.log2_spec x Hx) as [_ Hl].
  pose proof (N.sqrt_spec' x) as [Hs _].
  set (e := N.log2 x / 2).
  assert (He : N.succ (N.log2 x) <= 2 * (e + 1)).
  { pose proof (N.Div0.div_mod (N.log2 x) 2).
    pose proof (N.mod_upper_bound (N.log2 x) 2 ltac:(lia)). unfold e. lia. }
  assert (Hp : 2 ^ N.succ (N.log2 x) <= 2 ^ (e + 1) * 2 ^ (e + 1)).
  { rewrite <- N.pow_add_r. apply N.pow_le_mono_r; lia. }
  apply N.square_lt_simpl_nonneg; [lia|]. lia.
Qed.

(** Below [2^52] the floating-point root is the integer square root. *)
Lemma int_pow_half_exact (n : N) :
  n < 2 ^ 52 -> int_pow_half n = Ok (N.sqrt n).
Proof.
  intros Hn. unfold int_pow_half.
  rewrite float_of_int_small by (apply N.lt_trans with (2 ^ 52); [exact Hn | reflexivity]).
  f_equal.
  destruct (N.eq_dec n 0) as [->|Hz]; [reflexivity|].
  assert (Hl : N.log2 n < 52) by (apply N.log2_lt_pow2; lia).
  set (e := N.log2 n / 2).
  assert (He : 2 * e <= N.log2 n).
  { apply N.Div0.mul_div_le. }
  rewrite pow_half_scaled by (fold e; lia). fold e.
  assert (Ht : 0 < 2 ^ (52 - e)) by (apply N.neq_0_lt_0, N.pow_nonzero; lia).
  pose proof (N.sqrt_spec' n) as [Hs1 Hs2].
  apply N.le_antisymm.
  - apply rounded_root_upper; [exact Ht | lia |].
    apply N.le_trans with (2 ^ (e + 1)).
    + pose proof (log2_half_bound n ltac:(lia)). fold e in H. lia.
    + apply N.pow_le_mono_r; lia.
  - apply rounded_root_lower; [exact Ht | exact Hs1].
Qed.

(** [float(n)] for [n] of [53 + sh] bits: a multiple of [2^sh] within
    [2^(sh-1)] of [n]. *)
Lemma float_of_int_round (n sh : N) :
  1 <= sh -> sh <= 900 -> N.log2 n = 52 + sh ->
  exists x, float_of_int n = Ok x
            /\ 2 ^ (52 + sh) <= x <= 2 ^ (53 + sh)
            /\ (n <= x \/ n - x <= 2 ^ (sh - 1)).
Proof.
  intros H1 H2 Hl.
  assert (Hn : 0 < n) by (destruct n; [change (N.log2 0) with 0 in Hl; lia | lia]).
  pose proof (N.log2_spec n Hn) as [Lo Hi]. rewrite Hl in Lo, Hi.
  replace (N.succ (52 + sh)) with (53 + sh) in Hi by lia.
  rewrite N.pow_add_r in Lo, Hi.
  assert (Hp : 0 < 2 ^ sh) by (apply N.neq_0_lt_0, N.pow_nonzero; lia).
  unfold float_of_int. rewrite Hl.
  replace (52 + sh - 52) with sh by lia.
  rewrite N.shiftr_div_pow2, !N.shiftl_mul_pow2, N.mul_1_l.
  set (q := n / 2 ^ sh).
  pose proof (N.Div0.mul_div_le n (2 ^ sh)) as Q1. fold q in Q1.
  pose proof (N.mul_succ_div_gt n (2 ^ sh) ltac:(lia)) as Q2. fold q in Q2.
  assert (Q3 : 2 ^ 52 <= q) by (apply N.div_le_lower_bound; lia).
  assert (Q4 : q < 2 ^ 53) by (apply N.Div0.div_lt_upper_bound; lia).
  destruct (N.eqb_spec sh 0) as [E|_]; [lia|].
  match goal with |- context [N.log2 ?X] => set (x := X) end.
  assert (Hx : (x = (q + 1) * 2 ^ sh /\ n <= x) \/ (x = q * 2 ^ sh /\ n - x <= 2 ^ (sh - 1))).
  { unfold x. destruct (_ || _) eqn:Hc; [left; split; [reflexivity|lia]|right].
    split; [reflexivity|].
    apply orb_false_iff in Hc. destruct Hc as [Hc _].
    apply N.ltb_ge in Hc. lia. }
  assert (Bx : 2 ^ 52 * 2 ^ sh <= x <= 2 ^ 53 * 2 ^ sh).
  { destruct Hx as [[-> _]|[-> _]]; nia. }
  clearbody x.
  assert (Ll : N.log2 x < 1024).
  { apply N.log2_lt_pow2; [lia|].
    apply N.le_lt_trans with (2 ^ 53 * 2 ^ sh); [lia|].
    rewrite <- N.pow_add_r. apply N.pow_lt_mono_r; lia. }
  destruct (N.leb_spec 1024 (N.log2 x)) as [|_]; [lia|].
  exists x. rewrite !N.pow_add_r. repeat split; lia.
Qed.

(** For every length a Python string can have, the floating-point root is
    at least the integer square root. *)
Lemma int_pow_half_lower (n : N) :
  n < 2 ^ 58 -> exists r, int_pow_half n = Ok r /\ N.sqrt n <= r.
Proof.
  intros Hn. unfold int_pow_half.
  pose proof (N.sqrt_spec' n) as [Hs1 Hs2].
  destruct (N.lt_ge_cases n (2 ^ 53)) as [Hsmall|Hbig].
  - rewrite float_of_int_small by exact Hsmall.
    eexists; split; [reflexivity|].
    destruct (N.eq_dec n 0) as [->|Hz]; [reflexivity|].
    assert (N.log2 n < 53) by (apply N.log2_lt_pow2; lia).
    assert (N.log2 n / 2 <= 52).
    { pose proof (N.Div0.div_le_upper_bound (N.log2 n) 2 52). lia. }
    rewrite pow_half_scaled by lia.
    apply rounded_root_lower; [|exact Hs1].
    apply N.neq_0_lt_0, N.pow_nonzero; lia.
  - assert (Hpos : 0 < n) by (apply N.lt_le_trans with (2 ^ 53); [reflexivity | exact Hbig]).
    assert (Hl1 : 53 <= N.log2 n) by (apply N.log2_le_pow2; assumption).
    assert (Hl2 : N.log2 n < 58) by (apply N.log2_lt_pow2; assumption).
    set (sh := N.log2 n - 52).
    destruct (float_of_int_round n sh) as (x & -> & [Bx1 Bx2] & Hx); try (unfold sh; lia).
    eexists; split; [reflexivity|].
    assert (Hxpos : 0 < x).
    { apply N.lt_le_trans with (2 ^ (52 + sh)); [|exact Bx1].
      apply N.neq_0_lt_0, N.pow_nonzero; lia. }
    assert (Lx : N.log2 x < 54 + sh).
    { apply N.log2_lt_pow2; [exact Hxpos|].
      apply N.le_lt_trans with (2 ^ (53 + sh)); [exact Bx2|].
      apply N.pow_lt_mono_r; lia. }
    assert (Ex : N.log2 x / 2 <= 52).
    { pose proof (N.Div0.div_le_upper_bound (N.log2 x) 2 52). unfold sh in Lx. lia. }
    rewrite pow_half_scaled by assumption.
    assert (Ht : 0 < 2 ^ (52 - N.log2 x / 2)) by (apply N.neq_0_lt_0, N.pow_nonzero; lia).
    destruct (N.le_gt_cases (N.sqrt n * N.sqrt n) x) as [Hle|Hgt].
    + apply rounded_root_lower; assumption.
    + assert (Hd : n - x <= 2 ^ (sh - 1)) by (destruct Hx; [lia | assumption]).
      assert (Hlog : N.log2 x = 52 + sh).
      { apply N.log2_unique; [lia|]. split; [exact Bx1|].
        pose proof (N.log2_spec n Hpos) as [_ Hi].
        replace (N.succ (N.log2 n)) with (N.succ (52 + sh)) in Hi by (unfold sh; lia).
        lia. }
      apply rounded_root_up; [exact Ht | exact Hgt |]. rewrite Hlog.
      assert (Hk : forall b, b * b <= 2 ^ 53 * 2 ^ (sh - 1) -> b * b <= n).
      { intros b Hb. apply N.le_trans with (2 ^ (52 + sh)).
        - replace (52 + sh) with (53 + (sh - 1)) by (unfold sh; lia).
          now rewrite N.pow_add_r.
        - pose proof (N.log2_spec n Hpos) as [Lo _].
          replace (N.log2 n) with (52 + sh) in Lo by (unfold sh; lia). exact Lo. }
      assert (Hsh : sh = 1 \/ sh = 2 \/ sh = 3 \/ sh = 4 \/ sh = 5) by (unfold sh; lia).
      clearbody sh.
      destruct Hsh as [->|[->|[->|[->| ->]]]].
      * assert (2 ^ 26 + 1 <= N.sqrt n) by (apply N.sqrt_le_square, Hk; vm_compute; discriminate).
        change (2 ^ (52 - (52 + 1) / 2)) with (2 ^ 26).
        change (2 ^ (1 - 1)) with 1 in Hd. nia.
      * assert (2 ^ 27 <= N.sqrt n) by (apply N.sqrt_le_square, Hk; vm_compute; discriminate).
        change (2 ^ (52 - (52 + 2) / 2)) with (2 ^ 25).
        change (2 ^ (2 - 1)) with 2 in Hd. nia.
      * assert (2 ^ 27 + 1 <= N.sqrt n) by (apply N.sqrt_le_square, Hk; vm_compute; discriminate).
        change (2 ^ (52 - (52 + 3) / 2)) with (2 ^ 25).
        change (2 ^ (3 - 1)) with 4 in Hd. nia.
      * assert (2 ^ 28 <= N.sqrt n) by (apply N.sqrt_le_square, Hk; vm_compute; discriminate).
        change (2 ^ (52 - (52 + 4) / 2)) with (2 ^ 24).
        change (2 ^ (4 - 1)) with 8 in Hd. nia.
      * assert (2 ^ 28 + 1 <= N.sqrt n) by (apply N.sqrt_le_square, Hk; vm_compute; discriminate).
        change (2 ^ (52 - (52 + 5) / 2)) with (2 ^ 24).
        change (2 ^ (5 - 1)) with 16 in Hd. nia.
Qed.

(** Below [2^52] it does not matter which of the two doubles adjacent to
    the true root the power returns: with [t = 2^(52 - e)], the doubles
    adjacent to [sqrt x] are [q / t] for [q] the integer part of
    [sqrt x * t] or the next integer, and both truncate to the integer
    square root. *)
Lemma adjacent_root_truncates (x q : N) :
  0 < x -> x < 2 ^ 52 ->
  N.sqrt (x * (2 ^ (52 - N.log2 x / 2) * 2 ^ (52 - N.log2 x / 2))) <= q
  <= N.sqrt (x * (2 ^ (52 - N.log2 x / 2) * 2 ^ (52 - N.log2 x / 2))) + 1 ->
  int_of_float (q, N.log2 x / 2) = N.sqrt x.
Proof.
  intros Hx Hs Hq.
  assert (Hl : N.log2 x < 52) by (apply N.log2_lt_pow2; lia).
  set (e := N.log2 x / 2) in *.
  assert (He : 2 * e <= N.log2 x) by apply N.Div0.mul_div_le.
  unfold int_of_float.
  replace (e - 52) with 0 by lia.
  rewrite N.shiftl_0_r, N.shiftr_div_pow2.
  set (t := 2 ^ (52 - e)) in *.
  assert (Ht : 0 < t) by (apply N.neq_0_lt_0, N.pow_nonzero; lia).
  pose proof (N.sqrt_spec' x) as [Hs1 Hs2].
  pose proof (N.sqrt_spec' (x * (t * t))) as [Hq1 Hq2].
  set (k := N.sqrt x) in *. set (q0 := N.sqrt (x * (t * t))) in *.
  assert (Hk : 2 * (k + 1) <= t).
  { pose proof (log2_half_bound x Hx) as Hb. fold e in Hb. fold k in Hb.
    apply N.le_trans with (2 * 2 ^ (e + 1)); [lia|].
    rewrite <- N.pow_succ_r'. apply N.pow_le_mono_r; lia. }
  apply N.le_antisymm.
  - assert (q / t < k + 1); [|lia].
    apply N.Div0.div_lt_upper_bound.
    assert (q0 + 1 < t * (k + 1)); [|lia].
    destruct (N.lt_ge_cases (q0 + 1) (t * (k + 1))) as [|Hc]; [assumption|exfalso].
    assert (t * (k + 1) - 1 <= q0) by lia.
    assert ((t * (k + 1) - 1) * (t * (k + 1) - 1) <= q0 * q0) by nia.
    assert (x + 1 <= (k + 1) * (k + 1)) by lia.
    assert (x * (t * t) + t * t <= (t * (k + 1)) * (t * (k + 1))) by nia.
    nia.
  - apply N.div_le_lower_bound; [lia|].
    assert (t * k <= q0) by nia. lia.
Qed.

End Float64Facts.

(* ================================================================== *)
(** * Layout, image and the reverse path                               *)
(* ================================================================== *)

(** On the samples the integer model gives what the kernel's binary64
    conversion and correctly rounded square root give. *)
Lemma int_pow_half_agrees :
  forallb (fun n => match Float64.int_pow_half n with
                    | Ok r => Z.eqb (Z.of_N r) (prim_int_pow_half n)
                    | Raise _ => false
                    end) float_samples = true.
Proof. vm_compute. reflexivity. Qed.

(** The root is also right at [2^58], the largest pixel count of a Python
    string. *)
Lemma int_pow_half_lower_le (n : N) :
  (n <= 2 ^ 58)%N -> exists r, Float64.int_pow_half n = Ok r /\ (N.sqrt n <= r)%N.
Proof.
  intros Hn. destruct (N.eq_dec n (2 ^ 58)) as [->|Hne].
  - eexists. split; [vm_compute; reflexivity|]. vm_compute. discriminate.
  - apply Float64Facts.int_pow_half_lower. lia.
Qed.

(** The layout of a bit string of a length Python allows. *)
Lemma layout_ok (n : N) :
  (n < max_len)%N ->
  exists width,
    layout n = Ok (((n + 31) / 32)%N, width, width)
    /\ ((n + 31) / 32 < width * width)%N
    /\ (((n + 31) / 32 < 2 ^ 52)%N -> width = (N.sqrt ((n + 31) / 32) + 1)%N).
Proof.
  intros Hn. unfold layout, max_len in *.
  set (pc := ((n + 31) / 32)%N).
  assert (Hpc : (pc <= 2 ^ 58)%N).
  { assert (pc < 2 ^ 58 + 1)%N; [|lia].
    unfold pc. apply N.Div0.div_lt_upper_bound.
    change (32 * (2 ^ 58 + 1))%N with (2 ^ 63 + 32)%N. lia. }
  destruct (int_pow_half_lower_le pc Hpc) as (r & Hr & Hle).
  rewrite Hr. cbn [rbind].
  exists (r + 1)%N. split; [reflexivity|].
  pose proof (N.sqrt_spec' pc) as [_ Hs].
  split; [nia|].
  intros Hsmall. rewrite (Float64Facts.int_pow_half_exact pc Hsmall) in Hr.
  now injection Hr as <-.
Qed.

Lemma skipn_repeat {A} (x : A) (k n : nat) : skipn k (repeat x n) = repeat x (n - k).
Proof.
  revert n; induction k as [|k IH]; intros n.
  - now rewrite Nat.sub_0_r.
  - destruct n as [|n]; [reflexivity|]. simpl. apply IH.
Qed.

(** [create_image_from_binary] on a bit string whose pixels fit the grid:
    the pixels, then zero pixels up to the size of the grid. *)
Lemma create_image_from_binary_ok (binary_data : list ascii) (width height : N)
      (pixels : list pixel) (pad : nat) :
  binary_to_rgba_pixels binary_data = Ok (pixels, pad) ->
  length pixels <= N.to_nat (width * height) ->
  create_image_from_binary binary_data width height
  = Ok (PIL.mkImage (width, height)
          (pixels ++ repeat (0, 0, 0, 0)%N (N.to_nat (width * height) - length pixels))).
Proof.
  intros Hp Hfit. unfold create_image_from_binary. rewrite Hp. cbn [rbind].
  unfold PIL.putdata, PIL.new. cbn [PIL.getdata PIL.size].
  rewrite repeat_length.
  destruct (Nat.ltb_spec (N.to_nat (width * height)) (length pixels)) as [|_]; [lia|].
  now rewrite skipn_repeat.
Qed.

(** The padding of the bits of [n] bytes is a whole number of bytes. *)
Lemma byte_padding (n : nat) :
  (32 - (8 * n) mod 32) mod 32 = 8 * ((4 - n mod 4) mod 4).
Proof.
  pose proof (Nat.mod_upper_bound n 4 ltac:(lia)) as Hm.
  pose proof (Nat.div_mod_eq n 4) as Hd.
  assert (E : (8 * n) mod 32 = 8 * (n mod 4)).
  { symmetry. apply Nat.mod_unique with (q := n / 4); lia. }
  rewrite E.
  destruct (n mod 4) as [|[|[|[|k]]]]; try reflexivity; lia.
Qed.

(** What the decoder reads from the pixels of a byte string followed by
    zero pixels: the byte string followed by zero bytes. *)
Lemma unpack_bytes (data : bytes) (pixels : list pixel) (pad z : nat) :
  binary_to_rgba_pixels (binary_of_bytes data) = Ok (pixels, pad) ->
  rgba_pixels_to_binary (pixels ++ repeat (0, 0, 0, 0)%N z)
  = binary_of_bytes (data ++ repeat x00 ((4 - length data mod 4) mod 4 + 4 * z)).
Proof.
  intros Hp.
  destruct (pack_unpack (binary_of_bytes data) (binary_of_bytes_is_bits data))
    as (pixels' & Hp' & _ & Hu).
  rewrite Hp in Hp'. injection Hp' as <- ->.
  rewrite rgba_pixels_to_binary_app, Hu, rgba_pixels_to_binary_zeros.
  rewrite binary_of_bytes_length, byte_padding.
  rewrite binary_of_bytes_app, binary_of_bytes_zeros, <- app_assoc, <- repeat_app.
  do 2 f_equal. lia.
Qed.

Lemma decode_pixels (data : bytes) (pixels : list pixel) (pad z : nat) :
  binary_to_rgba_pixels (binary_of_bytes data) = Ok (pixels, pad) ->
  data <> [] \/ 0 < z ->
  bytes_of_binary (rgba_pixels_to_binary (pixels ++ repeat (0, 0, 0, 0)%N z))
  = Ok (data ++ repeat x00 ((4 - length data mod 4) mod 4 + 4 * z)).
Proof.
  intros Hp Hne. rewrite (unpack_bytes data pixels pad z Hp).
  apply bytes_of_binary_of_bytes.
  intros E. apply app_eq_nil in E. destruct E as [E1 E2].
  destruct Hne as [Hd|Hz]; [congruence|].
  apply (f_equal (@length _)) in E2. rewrite repeat_length in E2. simpl in E2. lia.
Qed.

(** The pixel count of the layout is the number of pixels packed. *)
Lemma pixel_count_length (binary_data : list ascii) (pixels : list pixel) (pad : nat) :
  binary_to_rgba_pixels binary_data = Ok (pixels, pad) ->
  is_bits binary_data = true ->
  ((N.of_nat (length binary_data) + 31) / 32)%N = N.of_nat (length pixels).
Proof.
  intros Hp Hb.
  destruct (pack_unpack binary_data Hb) as (pixels' & Hp' & Hl & _).
  rewrite Hp in Hp'. injection Hp' as <- ->.
  pose proof (Nat.mod_upper_bound (32 - length binary_data mod 32) 32 ltac:(lia)) as Hm.
  symmetry.
  apply N.div_unique
    with (r := (N.of_nat (length binary_data) + 31 - 32 * N.of_nat (length pixels))%N); lia.
Qed.

(* ================================================================== *)
(** * Runs of the conversion methods                                   *)
(* ================================================================== *)

Lemma bind_call {E A} (ev : E) (k : unit -> M E A) :
  bind (call ev) k = (ev :: fst (k tt), snd (k tt)).
Proof. unfold bind, call. destruct (k tt). reflexivity. Qed.

Lemma bind_lift_ok {E A B} (a : A) (k : A -> M E B) : bind (lift (Ok a)) k = k a.
Proof. unfold bind, lift. destruct (k a). reflexivity. Qed.

Lemma bind_ret {E A B} (a : A) (k : A -> M E B) : bind (ret a) k = k a.
Proof. unfold bind, ret. destruct (k a). reflexivity. Qed.

Lemma bind_raise {E A B} (e : exn) (k : A -> M E B) :
  bind (lift (Raise e)) k = ([], Raise e).
Proof. reflexivity. Qed.

Lemma bind_bind_call {E A B} (ev : E) (e : exn) (k : A -> M E B) :
  bind (bind (call ev) (fun _ => raise e)) k = ([ev], Raise e).
Proof. reflexivity. Qed.

Ltac run_step :=
  first [ rewrite bind_call | rewrite bind_lift_ok | rewrite bind_ret
        | rewrite bind_raise | rewrite bind_bind_call ].

Section Runs.
Context {Z : Zstandard} {D : Disk}.

(** The forward method on a file that compression shrinks: it calls
    [img.save] on the image of the frame's pixels, and what follows is the
    disk's answer. *)
Lemma convert_file_to_image_saves (input_file output_dir : string)
      (file_data frame : bytes) :
  is_empty input_file = false -> is_empty output_dir = false ->
  read_binary input_file = Ok file_data ->
  zstd_compress file_data = Ok frame ->
  length frame < length file_data ->
  (N.of_nat (8 * length frame) < max_len)%N ->
  exists pixels pad width slack,
    binary_to_rgba_pixels (binary_of_bytes frame) = Ok (pixels, pad)
    /\ layout (N.of_nat (length (binary_of_bytes frame)))
       = Ok (N.of_nat (length pixels), width, width)
    /\ ByteMapApp.convert_file_to_image input_file output_dir
       = let output_file :=
           path_join output_dir
             (String.append (splitext_root (basename input_file)) ".bytemap.png") in
         let img :=
           PIL.mkImage (width, width)
             (pixels ++ repeat (0, 0, 0, 0)%N (S slack)) in
         [ByteMapApp.update_progress 0; ByteMapApp.update_progress 20;
          ByteMapApp.update_progress 50;
          ByteMapApp.img_save output_file img]
         ++ match image_save output_file img with
            | Ok _ =>
                [ByteMapApp.update_progress 100;
                 ByteMapApp.status_label_config
                   (ByteMapApp.image_saved output_file
                      (length file_data) (length frame))]
            | Raise e =>
                [ByteMapApp.logging_error "Error in convert_file_to_image: %s" e;
                 ByteMapApp.showerror_exn "Error" e]
            end.
Proof.
  intros Hi Ho Hread Hcomp Hlt Hmax.
  pose proof (binary_of_bytes_is_bits frame) as Hb.
  destruct (pack_unpack _ Hb) as (pixels & Hp & Hl & _).
  rewrite <- (binary_of_bytes_length frame) in Hmax.
  destruct (layout_ok _ Hmax) as (width & Hlay & Hfit & _).
  rewrite (pixel_count_length _ pixels _ Hp Hb) in Hlay, Hfit.
  assert (Hslack : exists slack, N.to_nat (width * width) - length pixels = S slack).
  { exists (N.to_nat (width * width) - length pixels - 1). lia. }
  destruct Hslack as (slack & Hslack).
  eexists pixels, _, width, slack. split; [exact Hp|]. split; [exact Hlay|].
  unfold ByteMapApp.convert_file_to_image.
  rewrite Hi, Ho. cbn [orb].
  repeat run_step. rewrite Hread. repeat run_step.
  unfold ByteMapApp.compress_data. rewrite Hcomp. repeat run_step.
  destruct (Nat.leb_spec (length file_data) (length frame)) as [|_]; [lia|].
  repeat run_step. rewrite Hlay. repeat run_step.
  rewrite (create_image_from_binary_ok _ width width pixels _ Hp) by lia.
  repeat run_step. rewrite Hslack. cbv zeta.
  destruct (image_save _ _) as [u|e]; [|reflexivity].
  repeat run_step. unfold check_division.
  destruct (Nat.eqb_spec (length file_data) 0) as [|_]; [lia|].
  repeat run_step. reflexivity.
Qed.

(** The reverse method on an image holding the pixels of a frame, followed
    by [z] zero pixels: it opens the output file to write the original
    bytes, and what follows is the disk's answer. *)
Lemma convert_image_to_file_writes (input_file output_dir : string) (img : PIL.Image)
      (file_data frame : bytes) (pixels : list pixel) (pad z : nat) :
  trailing_zeros_ignored Z ->
  is_empty input_file = false -> is_empty output_dir = false ->
  image_open input_file = Ok img ->
  PIL.getdata img = pixels ++ repeat (0, 0, 0, 0)%N z ->
  binary_to_rgba_pixels (binary_of_bytes frame) = Ok (pixels, pad) ->
  frame <> [] \/ 0 < z ->
  zstd_compress file_data = Ok frame ->
  ByteMapApp.convert_image_to_file input_file output_dir
  = let output_file :=
      path_join output_dir
        (String.append (splitext_root (basename input_file)) ".output") in
    [ByteMapApp.update_progress 0; ByteMapApp.update_progress 50;
     ByteMapApp.write_binary output_file file_data]
    ++ match file_write output_file file_data with
       | Ok _ =>
           [ByteMapApp.update_progress 100;
            ByteMapApp.status_label_config (ByteMapApp.file_saved output_file)]
       | Raise e =>
           [ByteMapApp.logging_error "Error in convert_image_to_file: %s" e;
            ByteMapApp.showerror_exn "Error" e]
       end.
Proof.
  intros Hz Hi Ho Hopen Hdata Hp Hne Hcomp.
  unfold ByteMapApp.convert_image_to_file.
  rewrite Hi, Ho. cbn [orb].
  repeat run_step. rewrite Hopen. repeat run_step.
  unfold create_binary_from_image. rewrite Hdata.
  rewrite (decode_pixels frame pixels pad z Hp Hne). repeat run_step.
  unfold ByteMapApp.decompress_data.
  rewrite (Hz file_data frame _ Hcomp). repeat run_step. cbv zeta.
  destruct (file_write _ _) as [u|e]; [|reflexivity].
  repeat run_step. reflexivity.
Qed.

(** The forward methods on a file that compression does not shrink. *)
Lemma convert_file_to_image_aborts (input_file output_dir : string)
      (file_data frame : bytes) :
  is_empty input_file = false -> is_empty output_dir = false ->
  read_binary input_file = Ok file_data ->
  zstd_compress file_data = Ok frame ->
  length file_data <= length frame ->
  ByteMapApp.convert_file_to_image input_file output_dir
  = [ByteMapApp.update_progress 0; ByteMapApp.update_progress 20;
     ByteMapApp.showinfo "Info"
       "Compressed file is not smaller than the original. No file saved."].
Proof.
  intros Hi Ho Hread Hcomp Hle.
  unfold ByteMapApp.convert_file_to_image.
  rewrite Hi, Ho. cbn [orb].
  rewrite bind_call, Hread, bind_lift_ok, bind_call.
  unfold ByteMapApp.compress_data. rewrite Hcomp, bind_ret.
  destruct (Nat.leb_spec (length file_data) (length frame)) as [_|]; [|lia].
  reflexivity.
Qed.

Lemma worker_convert_to_image_aborts (input_file output_dir : string)
      (file_data frame : bytes) :
  read_binary input_file = Ok file_data ->
  zstd_compress file_data = Ok frame ->
  length file_data <= length frame ->
  ConversionWorker.run ConversionWorker.to_image input_file output_dir
  = [ConversionWorker.progress_emit 10; ConversionWorker.progress_emit 30;
     ConversionWorker.error_emit "Compressed file is not smaller than the original."].
Proof.
  intros Hread Hcomp Hle.
  unfold ConversionWorker.run, ConversionWorker.convert_to_image.
  rewrite bind_call, Hread, bind_lift_ok, bind_call.
  unfold ConversionWorker.compress_data. rewrite Hcomp, bind_ret.
  destruct (Nat.leb_spec (length file_data) (length frame)) as [_|]; [|lia].
  reflexivity.
Qed.

End Runs.

(** ** The example instance *)

Lemma Toy_unescape_escape (data tail : bytes) :
  Toy.unescape (Toy.escape data ++ tail) = Ok data.
Proof.
  induction data as [|b data IH]; [reflexivity|].
  cbn [Toy.escape app Toy.unescape]. cbn [Byte.eqb Byte.to_N N.eqb Pos.eqb].
  now rewrite IH.
Qed.

Lemma Toy_decompress_escape (data tail : bytes) :
  Toy.decompress (Toy.escape data ++ tail) = Ok data.
Proof.
  unfold Toy.decompress.
  destruct data as [|b data].
  - destruct tail as [|t tail]; reflexivity.
  - change (Toy.escape (b :: data) ++ tail)
      with (x01 :: b :: (Toy.escape data ++ tail)).
    cbn [Byte.eqb Byte.to_N N.eqb Pos.eqb].
    exact (Toy_unescape_escape (b :: data) tail).
Qed.

Lemma Toy_trailing_zeros : trailing_zeros_ignored Toy.zstd.
Proof.
  intros data frame k H. cbn in H. injection H as <-.
  cbn [zstd_decompress Toy.zstd].
  unfold Toy.compress.
  destruct data as [|a [|b [|c [|d [|e data]]]]]; try apply Toy_decompress_escape.
  destruct (Byte.eqb a b && Byte.eqb b c && Byte.eqb c d) eqn:E;
    [|apply Toy_decompress_escape].
  apply andb_true_iff in E. destruct E as [E E3].
  apply andb_true_iff in E. destruct E as [E1 E2].
  apply Byte.byte_dec_bl in E1, E2, E3. subst. reflexivity.
Qed.

(* ================================================================== *)
(** * The packer                                                       *)
(* ================================================================== *)

Lemma channel_holds_chunk (s : list ascii) (a off : nat) (v : N) :
  off + 8 <= 32 ->
  channel_holds (slice a (a + 32) s) off v -> channel_holds s (a + off) v.
Proof.
  intros Hoff [Hlt Hbit]. split; [exact Hlt|].
  intros j Hj. rewrite (Hbit j Hj). unfold bit_at.
  rewrite nth_slice by lia. f_equal. f_equal. lia.
Qed.

(** The channels of the [i]-th pixel hold the four groups of 8 bits of the
    [i]-th chunk of the padded string. *)
Lemma pixel_channels (binary_data : list ascii) (pixels : list pixel) (pad : nat) :
  is_bits binary_data = true ->
  binary_to_rgba_pixels binary_data = Ok (pixels, pad) ->
  forall i, i < length pixels ->
    let padded := binary_data ++ repeat "0"%char pad in
    let '(r, g, b, a) := nth i pixels (0, 0, 0, 0)%N in
    channel_holds padded (32 * i) r /\ channel_holds padded (32 * i + 8) g
    /\ channel_holds padded (32 * i + 16) b /\ channel_holds padded (32 * i + 24) a.
Proof.
  intros Hb Hp i Hi.
  destruct (pack_unpack binary_data Hb) as (pixels' & Hp' & Hl & _).
  assert (E : (pixels, pad) = (pixels', (32 - length binary_data mod 32) mod 32))
    by congruence.
  apply pair_equal_spec in E. destruct E as [<- ->]. clear Hp'.
  pose proof (binary_to_rgba_pixels_chunks binary_data) as Hc. cbv zeta in Hc.
  rewrite Hp in Hc.
  set (padded := binary_data ++ repeat "0"%char ((32 - length binary_data mod 32) mod 32)) in *.
  assert (Lp : length padded = 32 * length pixels)
    by (unfold padded; rewrite length_app, repeat_length; lia).
  assert (Bp : is_bits padded = true)
    by (unfold padded; now rewrite is_bits_app, Hb, is_bits_repeat_0).
  rewrite Lp in Hc.
  replace (32 * length pixels / 32) with (length pixels) in Hc
    by (apply Nat.div_unique_exact; lia).
  destruct (mapM pixel_of_chunk (chunks (length pixels) 32 padded)) as [ps|e] eqn:Hm;
    [|discriminate Hc].
  cbn [rbind] in Hc. assert (ps = pixels) by congruence. subst ps. clear Hc.
  pose proof (mapM_nth pixel_of_chunk _ _ [] (0, 0, 0, 0)%N Hm i) as Hn.
  rewrite chunks_length in Hn. specialize (Hn Hi).
  rewrite (chunks_nth 32 padded (length pixels) i Hi) in Hn.
  replace (i * 32) with (32 * i) in Hn by lia.
  set (chunk := slice (32 * i) (32 * i + 32) padded) in *.
  assert (Lc : length chunk = 32).
  { unfold chunk, slice. rewrite length_firstn, length_skipn. lia. }
  destruct (pixel_of_chunk_ok chunk Lc (is_bits_slice _ _ _ Bp))
    as (r & g & b & a & Hpix & _ & Cr & Cg & Cb & Ca).
  assert (En : nth i pixels (0, 0, 0, 0)%N = (r, g, b, a)) by congruence.
  rewrite En.
  split; [|split; [|split]].
  - replace (32 * i) with (32 * i + 0) by lia.
    apply channel_holds_chunk; [lia | exact Cr].
  - apply channel_holds_chunk; [lia | exact Cg].
  - apply channel_holds_chunk; [lia | exact Cb].
  - apply channel_holds_chunk; [lia | exact Ca].
Qed.

(** Claim C4.  For a byte sequence [b], rendered as a bit string of
    [8 * len(b)] bits, [binary_to_rgba_pixels] appends exactly
    [(32 - (8 * len(b)) mod 32) mod 32] zero bits: that is the padding
    length it returns, the pixels it returns print as the bit string
    followed by that many ['0'], the padded length is a multiple of 32 (one
    pixel per 32 bits), and a payload of a multiple of 32 bits gets no
    padding. *)
Theorem padding_to_32_bits (b : bytes) :
  let binary_data := binary_of_bytes b in
  let padding_length := (32 - (8 * length b) mod 32) mod 32 in
  length binary_data = 8 * length b
  /\ exists pixels,
      binary_to_rgba_pixels binary_data = Ok (pixels, padding_length)
      /\ rgba_pixels_to_binary pixels = binary_data ++ repeat "0"%char padding_length
      /\ 32 * length pixels = 8 * length b + padding_length
      /\ (8 * length b + padding_length) mod 32 = 0
      /\ ((8 * length b) mod 32 = 0 -> padding_length = 0).
Proof.
  intros binary_data padding_length.
  pose proof (binary_of_bytes_length b) as Hlen. fold binary_data in Hlen.
  split; [exact Hlen|].
  destruct (pack_unpack binary_data (binary_of_bytes_is_bits b)) as (pixels & Hp & Hl & Hu).
  rewrite Hlen in Hp, Hl, Hu. fold padding_length in Hp, Hl, Hu.
  exists pixels.
  destruct (padding_32 (8 * length b)) as (Hm & _ & Hz).
  repeat split; assumption.
Qed.

Lemma padding_to_32_bits_witness :
  length (binary_of_bytes sample_payload) = 40
  /\ exists pixels,
      binary_to_rgba_pixels (binary_of_bytes sample_payload) = Ok (pixels, 24)
      /\ rgba_pixels_to_binary pixels
         = binary_of_bytes sample_payload ++ repeat "0"%char 24
      /\ 32 * length pixels = 64
      /\ 64 mod 32 = 0
      /\ (40 mod 32 = 0 -> 24 = 0).
Proof. exact (padding_to_32_bits sample_payload). Defined.

(** Claim C5.  Each 32-bit chunk of the padded bit string gives exactly one
    pixel: there is one pixel per 32 bits, and in the [i]-th pixel R holds
    bits [[0, 8)] of the [i]-th chunk, G bits [[8, 16)], B bits [[16, 24)]
    and A bits [[24, 32)], each with the leftmost bit most significant; so
    every channel value is below 256. *)
Theorem chunk_to_pixel (binary_data : list ascii) :
  is_bits binary_data = true ->
  let padding_length := (32 - length binary_data mod 32) mod 32 in
  let padded := binary_data ++ repeat "0"%char padding_length in
  exists pixels,
    binary_to_rgba_pixels binary_data = Ok (pixels, padding_length)
    /\ 32 * length pixels = length padded
    /\ forall i, i < length pixels ->
         let '(r, g, b, a) := nth i pixels (0, 0, 0, 0)%N in
         channel_holds padded (32 * i) r
         /\ channel_holds padded (32 * i + 8) g
         /\ channel_holds padded (32 * i + 16) b
         /\ channel_holds padded (32 * i + 24) a.
Proof.
  intros Hb padding_length padded.
  destruct (pack_unpack binary_data Hb) as (pixels & Hp & Hl & _).
  fold padding_length in Hp, Hl.
  exists pixels. split; [exact Hp|]. split.
  - unfold padded. rewrite length_app, repeat_length. exact Hl.
  - intros i Hi. exact (pixel_channels binary_data pixels padding_length Hb Hp i Hi).
Qed.

Lemma chunk_to_pixel_witness :
  is_bits sample_bits_19 = true
  /\ exists pixels,
      binary_to_rgba_pixels sample_bits_19 = Ok (pixels, 13)
      /\ 32 * length pixels = length (sample_bits_19 ++ repeat "0"%char 13)
      /\ forall i, i < length pixels ->
           let '(r, g, b, a) := nth i pixels (0, 0, 0, 0)%N in
           channel_holds (sample_bits_19 ++ repeat "0"%char 13) (32 * i) r
           /\ channel_holds (sample_bits_19 ++ repeat "0"%char 13) (32 * i + 8) g
           /\ channel_holds (sample_bits_19 ++ repeat "0"%char 13) (32 * i + 16) b
           /\ channel_holds (sample_bits_19 ++ repeat "0"%char 13) (32 * i + 24) a.
Proof.
  split; [reflexivity|].
  apply (chunk_to_pixel sample_bits_19).
  reflexivity.
Defined.

(** Claim C6.  For a bit string of ['0'] and ['1'], printing the pixels
    that [binary_to_rgba_pixels] returns, channel by channel as 8-bit
    binary strings and pixel after pixel, gives exactly the bit string
    followed by its zero padding. *)
Theorem unpack_after_pack (binary_data : list ascii) :
  is_bits binary_data = true ->
  exists pixels padding_length,
    binary_to_rgba_pixels binary_data = Ok (pixels, padding_length)
    /\ padding_length = (32 - length binary_data mod 32) mod 32
    /\ rgba_pixels_to_binary pixels = binary_data ++ repeat "0"%char padding_length.
Proof.
  intros Hb.
  destruct (pack_unpack binary_data Hb) as (pixels & Hp & _ & Hu).
  exists pixels, ((32 - length binary_data mod 32) mod 32).
  repeat split; assumption.
Qed.

Lemma unpack_after_pack_witness :
  is_bits sample_bits_25 = true
  /\ exists pixels padding_length,
      binary_to_rgba_pixels sample_bits_25 = Ok (pixels, padding_length)
      /\ padding_length = (32 - length sample_bits_25 mod 32) mod 32
      /\ rgba_pixels_to_binary pixels
         = sample_bits_25 ++ repeat "0"%char padding_length.
Proof.
  split; [reflexivity|].
  apply (unpack_after_pack sample_bits_25).
  reflexivity.
Defined.

(* ================================================================== *)
(** * The layout                                                       *)
(* ================================================================== *)

(** Claim C3.  For every bit length up to [2^57 - 32], which is every bit
    string a machine can hold (a payload of 16 PiB), the layout computed on
    encode has [width = height], [width = floor(sqrt(pixel_count)) + 1]
    where [pixel_count = ceil(bit_length / 32)], and
    [width * height >= pixel_count]. *)
Theorem layout_formula (bit_length : N) :
  (bit_length <= 2 ^ 57 - 32)%N ->
  exists pixel_count width height,
    layout bit_length = Ok (pixel_count, width, height)
    /\ pixel_count = ((bit_length + 31) / 32)%N
    /\ width = height
    /\ width = (N.sqrt pixel_count + 1)%N
    /\ (pixel_count <= width * height)%N.
Proof.
  intros Hn.
  assert (Hmax : (bit_length < max_len)%N).
  { unfold max_len. apply N.le_lt_trans with (2 ^ 57 - 32)%N; [exact Hn|].
    vm_compute. reflexivity. }
  assert (Hpc : ((bit_length + 31) / 32 < 2 ^ 52)%N).
  { apply N.Div0.div_lt_upper_bound.
    change (32 * 2 ^ 52)%N with (2 ^ 57)%N.
    assert (32 <= 2 ^ 57)%N by (vm_compute; discriminate). lia. }
  destruct (layout_ok bit_length Hmax) as (width & Hl & Hfit & Hroot).
  exists ((bit_length + 31) / 32)%N, width, width.
  split; [exact Hl|]. split; [reflexivity|]. split; [reflexivity|].
  split; [exact (Hroot Hpc)|]. lia.
Qed.

Lemma layout_formula_witness :
  (1000 <= 2 ^ 57 - 32)%N
  /\ exists pixel_count width height,
      layout 1000 = Ok (pixel_count, width, height)
      /\ pixel_count = ((1000 + 31) / 32)%N
      /\ width = height
      /\ width = (N.sqrt pixel_count + 1)%N
      /\ (pixel_count <= width * height)%N.
Proof.
  split; [vm_compute; discriminate|].
  apply (layout_formula 1000). vm_compute. discriminate.
Defined.

(** Property X6.  For every bit length up to [2^57 - 32] the grid has at
    least one free cell and at most [2 * floor(sqrt(pixel_count)) + 1] of
    them: it is never more than one row and one column larger than the
    pixels need. *)
Theorem layout_slack_bounds (bit_length : N) :
  (bit_length <= 2 ^ 57 - 32)%N ->
  exists pixel_count width height,
    layout bit_length = Ok (pixel_count, width, height)
    /\ (pixel_count < width * height)%N
    /\ (width * height <= pixel_count + 2 * N.sqrt pixel_count + 1)%N
    /\ ((width - 1) * (height - 1) <= pixel_count)%N.
Proof.
  intros Hn.
  assert (Hmax : (bit_length < max_len)%N).
  { unfold max_len. apply N.le_lt_trans with (2 ^ 57 - 32)%N; [exact Hn|].
    vm_compute. reflexivity. }
  assert (Hpc : ((bit_length + 31) / 32 < 2 ^ 52)%N).
  { apply N.Div0.div_lt_upper_bound.
    change (32 * 2 ^ 52)%N with (2 ^ 57)%N.
    assert (32 <= 2 ^ 57)%N by (vm_compute; discriminate). lia. }
  destruct (layout_ok bit_length Hmax) as (width & Hl & Hfit & Hroot).
  specialize (Hroot Hpc).
  pose proof (N.sqrt_spec' ((bit_length + 31) / 32)) as [Hs1 Hs2].
  exists ((bit_length + 31) / 32)%N, width, width.
  split; [exact Hl|]. split; [exact Hfit|].
  subst width. split; [nia|].
  replace (N.sqrt ((bit_length + 31) / 32) + 1 - 1)%N
    with (N.sqrt ((bit_length + 31) / 32)) by lia.
  exact Hs1.
Qed.

Lemma layout_slack_bounds_witness :
  (1000 <= 2 ^ 57 - 32)%N
  /\ exists pixel_count width height,
      layout 1000 = Ok (pixel_count, width, height)
      /\ (pixel_count < width * height)%N
      /\ (width * height <= pixel_count + 2 * N.sqrt pixel_count + 1)%N
      /\ ((width - 1) * (height - 1) <= pixel_count)%N.
Proof.
  split; [vm_compute; discriminate|].
  apply (layout_slack_bounds 1000). vm_compute. discriminate.
Defined.

(* ================================================================== *)
(** * The conversion methods                                           *)
(* ================================================================== *)

Local Open Scope string_scope.

(** Claim C7.  When the compressed form of the input file is at least as
    long as the file, both forward methods stop after the size check with
    the no-benefit message: [convert_file_to_image] shows the information
    box, the worker emits its error signal, and neither saves an image nor
    writes anything else. *)
Theorem no_benefit_abort {Z : Zstandard} {D : Disk}
        (input_file output_dir : string) (file_data frame : bytes) :
  is_empty input_file = false -> is_empty output_dir = false ->
  read_binary input_file = Ok file_data ->
  zstd_compress file_data = Ok frame ->
  length file_data <= length frame ->
  ByteMapApp.convert_file_to_image input_file output_dir
  = [ByteMapApp.update_progress 0; ByteMapApp.update_progress 20;
     ByteMapApp.showinfo "Info"
       "Compressed file is not smaller than the original. No file saved."]
  /\ saved_images (ByteMapApp.convert_file_to_image input_file output_dir) = []
  /\ ConversionWorker.run ConversionWorker.to_image input_file output_dir
     = [ConversionWorker.progress_emit 10; ConversionWorker.progress_emit 30;
        ConversionWorker.error_emit
          "Compressed file is not smaller than the original."]
  /\ worker_saved_images
       (ConversionWorker.run ConversionWorker.to_image input_file output_dir) = [].
Proof.
  intros Hi Ho Hread Hcomp Hle.
  rewrite (convert_file_to_image_aborts _ _ _ _ Hi Ho Hread Hcomp Hle).
  rewrite (worker_convert_to_image_aborts _ _ _ _ Hread Hcomp Hle).
  repeat split.
Qed.

Lemma no_benefit_abort_witness :
  ByteMapApp.convert_file_to_image
    (Z := Toy.zstd) (D := Toy.disk (Ok [x41; x42; x43]) (Raise OSError))
    "in.bin" "out"
  = [ByteMapApp.update_progress 0; ByteMapApp.update_progress 20;
     ByteMapApp.showinfo "Info"
       "Compressed file is not smaller than the original. No file saved."]
  /\ saved_images
       (ByteMapApp.convert_file_to_image
          (Z := Toy.zstd) (D := Toy.disk (Ok [x41; x42; x43]) (Raise OSError))
          "in.bin" "out") = []
  /\ ConversionWorker.run
       (Z := Toy.zstd) (D := Toy.disk (Ok [x41; x42; x43]) (Raise OSError))
       ConversionWorker.to_image "in.bin" "out"
     = [ConversionWorker.progress_emit 10; ConversionWorker.progress_emit 30;
        ConversionWorker.error_emit
          "Compressed file is not smaller than the original."]
  /\ worker_saved_images
       (ConversionWorker.run
          (Z := Toy.zstd) (D := Toy.disk (Ok [x41; x42; x43]) (Raise OSError))
          ConversionWorker.to_image "in.bin" "out") = [].
Proof.
  apply (@no_benefit_abort Toy.zstd (Toy.disk (Ok [x41; x42; x43]) (Raise OSError))
           "in.bin" "out" [x41; x42; x43] (Toy.compress [x41; x42; x43]));
    try reflexivity.
  vm_compute. lia.
Defined.

(** Claim C10.  On the empty input file both forward methods take the
    no-benefit branch whatever frame the compressor returns, since the
    length of a frame is at least [0]: the runs end with the no-benefit
    message and never reach the packing of the bits. *)
Theorem empty_file_aborts {Z : Zstandard} {D : Disk}
        (input_file output_dir : string) (frame : bytes) :
  is_empty input_file = false -> is_empty output_dir = false ->
  read_binary input_file = Ok [] ->
  zstd_compress [] = Ok frame ->
  ByteMapApp.convert_file_to_image input_file output_dir
  = [ByteMapApp.update_progress 0; ByteMapApp.update_progress 20;
     ByteMapApp.showinfo "Info"
       "Compressed file is not smaller than the original. No file saved."]
  /\ ConversionWorker.run ConversionWorker.to_image input_file output_dir
     = [ConversionWorker.progress_emit 10; ConversionWorker.progress_emit 30;
        ConversionWorker.error_emit
          "Compressed file is not smaller than the original."].
Proof.
  intros Hi Ho Hread Hcomp.
  assert (Hle : length (@nil byte) <= length frame) by (simpl; lia).
  split.
  - exact (convert_file_to_image_aborts _ _ _ _ Hi Ho Hread Hcomp Hle).
  - exact (worker_convert_to_image_aborts _ _ _ _ Hread Hcomp Hle).
Qed.

Lemma empty_file_aborts_witness :
  ByteMapApp.convert_file_to_image
    (Z := Toy.zstd) (D := Toy.disk (Ok []) (Raise OSError)) "empty.bin" "out"
  = [ByteMapApp.update_progress 0; ByteMapApp.update_progress 20;
     ByteMapApp.showinfo "Info"
       "Compressed file is not smaller than the original. No file saved."]
  /\ ConversionWorker.run
       (Z := Toy.zstd) (D := Toy.disk (Ok []) (Raise OSError))
       ConversionWorker.to_image "empty.bin" "out"
     = [ConversionWorker.progress_emit 10; ConversionWorker.progress_emit 30;
        ConversionWorker.error_emit
          "Compressed file is not smaller than the original."].
Proof.
  apply (@empty_file_aborts Toy.zstd (Toy.disk (Ok []) (Raise OSError))
           "empty.bin" "out" (Toy.compress [])); reflexivity.
Defined.

(** Claim C9.  Packing is total and deterministic: for every byte sequence
    whose bit string Python can hold, the bit string packs into pixels, the
    layout is computed, the pixels fit the grid and
    [create_image_from_binary] returns the image holding them followed by
    zero pixels; each step is a function of its argument alone, so a second
    run returns the same pixels and dimensions.  For the empty byte sequence
    the pixel list is empty and the grid is 1 x 1, its only cell the default
    zero pixel. *)
Theorem pack_total (payload : bytes) :
  (N.of_nat (8 * length payload) < max_len)%N ->
  (exists pixels padding_length width img,
      binary_to_rgba_pixels (binary_of_bytes payload) = Ok (pixels, padding_length)
      /\ layout (N.of_nat (length (binary_of_bytes payload)))
         = Ok (N.of_nat (length pixels), width, width)
      /\ create_image_from_binary (binary_of_bytes payload) width width = Ok img
      /\ PIL.size img = (width, width)
      /\ PIL.getdata img
         = (pixels ++ repeat (0, 0, 0, 0)%N (N.to_nat (width * width) - length pixels))%list
      /\ forall r,
           create_image_from_binary (binary_of_bytes payload) width width = r ->
           r = Ok img)
  /\ binary_to_rgba_pixels (binary_of_bytes []) = Ok ([], 0)
  /\ layout (N.of_nat (length (binary_of_bytes []))) = Ok (0, 1, 1)%N
  /\ create_image_from_binary (binary_of_bytes []) 1 1
     = Ok (PIL.mkImage (1, 1)%N [(0, 0, 0, 0)%N]).
Proof.
  intros Hmax. split; [|repeat split].
  pose proof (binary_of_bytes_is_bits payload) as Hb.
  destruct (pack_unpack _ Hb) as (pixels & Hp & _ & _).
  rewrite <- (binary_of_bytes_length payload) in Hmax.
  destruct (layout_ok _ Hmax) as (width & Hlay & Hfit & _).
  rewrite (pixel_count_length _ pixels _ Hp Hb) in Hlay, Hfit.
  pose proof (create_image_from_binary_ok _ width width pixels _ Hp ltac:(lia)) as Hi.
  eexists pixels, _, width, _.
  split; [exact Hp|]. split; [exact Hlay|]. split; [exact Hi|].
  split; [reflexivity|]. split; [reflexivity|].
  intros r Hr. now rewrite <- Hr.
Qed.

Lemma pack_total_witness :
  (N.of_nat (8 * length sample_payload) < max_len)%N
  /\ (exists pixels padding_length width img,
      binary_to_rgba_pixels (binary_of_bytes sample_payload)
      = Ok (pixels, padding_length)
      /\ layout (N.of_nat (length (binary_of_bytes sample_payload)))
         = Ok (N.of_nat (length pixels), width, width)
      /\ create_image_from_binary (binary_of_bytes sample_payload) width width
         = Ok img
      /\ PIL.size img = (width, width)
      /\ PIL.getdata img
         = (pixels ++ repeat (0, 0, 0, 0)%N (N.to_nat (width * width) - length pixels))%list
      /\ forall r,
           create_image_from_binary (binary_of_bytes sample_payload) width width = r ->
           r = Ok img).
Proof.
  split; [reflexivity|].
  apply (pack_total sample_payload). reflexivity.
Defined.

(** Claim C1.  Let [file_data] be a non-empty file that compression
    shrinks, with a frame short enough for its bit string to be a Python
    string, and let the decompressor ignore zero bytes after a frame.  Then
    [convert_file_to_image] calls [img.save] on one image, of the computed
    width and height, and [convert_image_to_file], run on a disk where that
    image is what [Image.open] returns, opens its output file to write
    exactly [file_data].  Each run completes when the disk accepts the save
    or the write; when the disk raises, the error is logged and shown. *)
Theorem round_trip {Z : Zstandard} {D : Disk}
        (input_file output_dir : string) (file_data frame : bytes) :
  trailing_zeros_ignored Z ->
  file_data <> [] ->
  is_empty input_file = false -> is_empty output_dir = false ->
  read_binary input_file = Ok file_data ->
  zstd_compress file_data = Ok frame ->
  length frame < length file_data ->
  (N.of_nat (8 * length frame) < max_len)%N ->
  exists img saved_as pixel_count,
    ByteMapApp.convert_file_to_image input_file output_dir
    = ([ByteMapApp.update_progress 0; ByteMapApp.update_progress 20;
       ByteMapApp.update_progress 50;
       ByteMapApp.img_save saved_as img]
      ++ match image_save saved_as img with
         | Ok _ =>
             [ByteMapApp.update_progress 100;
              ByteMapApp.status_label_config
                (ByteMapApp.image_saved saved_as (length file_data) (length frame))]
         | Raise e =>
             [ByteMapApp.logging_error "Error in convert_file_to_image: %s" e;
              ByteMapApp.showerror_exn "Error" e]
         end)%list
    /\ layout (N.of_nat (length (binary_of_bytes frame)))
       = Ok (pixel_count, fst (PIL.size img), snd (PIL.size img))
    /\ forall (D' : Disk) (image_file output_dir' : string),
         is_empty image_file = false -> is_empty output_dir' = false ->
         image_open (Disk := D') image_file = Ok img ->
         ByteMapApp.convert_image_to_file (D := D') image_file output_dir'
         = let output_file :=
             path_join (Disk := D') output_dir'
               (splitext_root (Disk := D') (basename (Disk := D') image_file)
                ++ ".output") in
           ([ByteMapApp.update_progress 0; ByteMapApp.update_progress 50;
            ByteMapApp.write_binary output_file file_data]
           ++ match file_write (Disk := D') output_file file_data with
              | Ok _ =>
                  [ByteMapApp.update_progress 100;
                   ByteMapApp.status_label_config
                     (ByteMapApp.file_saved output_file)]
              | Raise e =>
                  [ByteMapApp.logging_error
                     "Error in convert_image_to_file: %s" e;
                   ByteMapApp.showerror_exn "Error" e]
              end)%list.
Proof.
  intros Hz _ Hi Ho Hread Hcomp Hlt Hmax.
  destruct (convert_file_to_image_saves input_file output_dir file_data frame
              Hi Ho Hread Hcomp Hlt Hmax)
    as (pixels & pad & width & slack & Hp & Hlay & Hrun).
  eexists _, _, _. split; [exact Hrun|]. split; [exact Hlay|].
  intros D' image_file output_dir' Hi' Ho' Hopen.
  apply (convert_image_to_file_writes (D := D') image_file output_dir' _
           file_data frame pixels pad (S slack) Hz Hi' Ho' Hopen); auto.
  right. lia.
Qed.

Lemma round_trip_witness :
  exists img saved_as pixel_count,
    ByteMapApp.convert_file_to_image
      (Z := Toy.zstd) (D := Toy.disk (Ok [x41; x41; x41; x41]) (Raise OSError))
      "in.bin" "out"
    = [ByteMapApp.update_progress 0; ByteMapApp.update_progress 20;
       ByteMapApp.update_progress 50;
       ByteMapApp.img_save saved_as img;
       ByteMapApp.update_progress 100;
       ByteMapApp.status_label_config (ByteMapApp.image_saved saved_as 4 2)]
    /\ layout (N.of_nat (length (binary_of_bytes [x02; x41])))
       = Ok (pixel_count, fst (PIL.size img), snd (PIL.size img))
    /\ forall (D' : Disk) (image_file output_dir' : string),
         is_empty image_file = false -> is_empty output_dir' = false ->
         image_open (Disk := D') image_file = Ok img ->
         ByteMapApp.convert_image_to_file (Z := Toy.zstd) (D := D')
           image_file output_dir'
         = let output_file :=
             path_join (Disk := D') output_dir'
               (splitext_root (Disk := D') (basename (Disk := D') image_file)
                ++ ".output") in
           ([ByteMapApp.update_progress 0; ByteMapApp.update_progress 50;
            ByteMapApp.write_binary output_file [x41; x41; x41; x41]]
           ++ match file_write (Disk := D') output_file [x41; x41; x41; x41] with
              | Ok _ =>
                  [ByteMapApp.update_progress 100;
                   ByteMapApp.status_label_config
                     (ByteMapApp.file_saved output_file)]
              | Raise e =>
                  [ByteMapApp.logging_error
                     "Error in convert_image_to_file: %s" e;
                   ByteMapApp.showerror_exn "Error" e]
              end)%list.
Proof.
  apply (@round_trip Toy.zstd (Toy.disk (Ok [x41; x41; x41; x41]) (Raise OSError))
           "in.bin" "out" [x41; x41; x41; x41] [x02; x41]).
  - exact Toy_trailing_zeros.
  - discriminate.
  - reflexivity.
  - reflexivity.
  - reflexivity.
  - reflexivity.
  - simpl. lia.
  - reflexivity.
Defined.

(** Claim C8.  Let [pixels] be the pixels the encoder packs for the frame of
    [file_data], and let the decompressor ignore zero bytes after a frame.
    Then [convert_image_to_file] writes the same bytes, namely [file_data],
    from an image holding [pixels] followed by any number [z] of zero pixels
    as from the minimal image holding [pixels] only. *)
Theorem slack_tolerance {Z : Zstandard} (D1 D2 : Disk)
        (file_data frame : bytes) (pixels : list pixel) (padding_length z : nat)
        (minimal extended : PIL.Image)
        (image1 output_dir1 image2 output_dir2 : string) :
  trailing_zeros_ignored Z ->
  zstd_compress file_data = Ok frame ->
  frame <> [] ->
  binary_to_rgba_pixels (binary_of_bytes frame) = Ok (pixels, padding_length) ->
  PIL.getdata minimal = pixels ->
  PIL.getdata extended = (pixels ++ repeat (0, 0, 0, 0)%N z)%list ->
  is_empty image1 = false -> is_empty output_dir1 = false ->
  is_empty image2 = false -> is_empty output_dir2 = false ->
  image_open (Disk := D1) image1 = Ok minimal ->
  image_open (Disk := D2) image2 = Ok extended ->
  written_data (ByteMapApp.convert_image_to_file (D := D2) image2 output_dir2)
  = written_data (ByteMapApp.convert_image_to_file (D := D1) image1 output_dir1)
  /\ written_data (ByteMapApp.convert_image_to_file (D := D1) image1 output_dir1)
     = [file_data].
Proof.
  intros Hz Hcomp Hne Hp Hmin Hext Hi1 Ho1 Hi2 Ho2 Hopen1 Hopen2.
  assert (Hmin' : PIL.getdata minimal = (pixels ++ repeat (0, 0, 0, 0)%N 0)%list)
    by (rewrite Hmin; symmetry; apply app_nil_r).
  rewrite (convert_image_to_file_writes (D := D1) image1 output_dir1 minimal
             file_data frame pixels padding_length 0 Hz Hi1 Ho1 Hopen1 Hmin' Hp
             (or_introl Hne) Hcomp).
  rewrite (convert_image_to_file_writes (D := D2) image2 output_dir2 extended
             file_data frame pixels padding_length z Hz Hi2 Ho2 Hopen2 Hext Hp
             (or_introl Hne) Hcomp).
  cbv zeta.
  destruct (file_write (Disk := D1) _ _); destruct (file_write (Disk := D2) _ _);
    split; reflexivity.
Qed.

Lemma slack_tolerance_witness :
  written_data
    (ByteMapApp.convert_image_to_file
       (Z := Toy.zstd)
       (D := Toy.disk (Raise OSError)
               (Ok (PIL.mkImage (2, 2)%N
                      [(2, 65, 0, 0); (0, 0, 0, 0); (0, 0, 0, 0); (0, 0, 0, 0)]%N)))
       "a.png" "out")
  = written_data
      (ByteMapApp.convert_image_to_file
         (Z := Toy.zstd)
         (D := Toy.disk (Raise OSError)
                 (Ok (PIL.mkImage (1, 1)%N [(2, 65, 0, 0)%N])))
         "b.png" "out")
  /\ written_data
       (ByteMapApp.convert_image_to_file
          (Z := Toy.zstd)
          (D := Toy.disk (Raise OSError)
                  (Ok (PIL.mkImage (1, 1)%N [(2, 65, 0, 0)%N])))
          "b.png" "out")
     = [[x41; x41; x41; x41]].
Proof.
  apply (@slack_tolerance Toy.zstd
           (Toy.disk (Raise OSError) (Ok (PIL.mkImage (1, 1)%N [(2, 65, 0, 0)%N])))
           (Toy.disk (Raise OSError)
              (Ok (PIL.mkImage (2, 2)%N
                     [(2, 65, 0, 0); (0, 0, 0, 0); (0, 0, 0, 0); (0, 0, 0, 0)]%N)))
           [x41; x41; x41; x41] [x02; x41] [(2, 65, 0, 0)%N] 16 3
           (PIL.mkImage (1, 1)%N [(2, 65, 0, 0)%N])
           (PIL.mkImage (2, 2)%N
              [(2, 65, 0, 0); (0, 0, 0, 0); (0, 0, 0, 0); (0, 0, 0, 0)]%N)
           "b.png" "out" "a.png" "out").
  - exact Toy_trailing_zeros.
  - reflexivity.
  - discriminate.
  - reflexivity.
  - reflexivity.
  - reflexivity.
  - reflexivity.
  - reflexivity.
  - reflexivity.
  - reflexivity.
  - reflexivity.
  - reflexivity.
Defined.

Local Close Scope string_scope.

(* ================================================================== *)
(** * Pixels as raw bytes                                              *)
(* ================================================================== *)

Lemma byte_of_N_to_N (n : N) : (n < 256)%N -> Byte.to_N (byte_of_N n) = n.
Proof.
  intros Hn. unfold byte_of_N.
  destruct (Byte.of_N n) as [x|] eqn:E.
  - now apply Byte.to_of_N.
  - apply Byte.of_N_None_iff in E. lia.
Qed.

Lemma rgba_pixel_bound (r g b a : N) :
  rgba_pixel (r, g, b, a) = true -> (r < 256 /\ g < 256 /\ b < 256 /\ a < 256)%N.
Proof.
  unfold rgba_pixel. intros H.
  apply andb_true_iff in H. destruct H as [H Ha].
  apply andb_true_iff in H. destruct H as [H Hb].
  apply andb_true_iff in H. destruct H as [Hr Hg].
  apply N.ltb_lt in Hr, Hg, Hb, Ha. auto.
Qed.

(** Printing in-range pixels gives the bits of their bytes. *)
Lemma rgba_pixels_to_binary_bytes (pixels : list pixel) :
  rgba_pixels pixels = true ->
  rgba_pixels_to_binary pixels = binary_of_bytes (pixels_bytes pixels).
Proof.
  induction pixels as [|[[[r g] b] a] pixels IH]; intros H; [reflexivity|].
  cbn [rgba_pixels forallb] in H. apply andb_true_iff in H. destruct H as [Hp Hs].
  apply rgba_pixel_bound in Hp. destruct Hp as (Hr & Hg & Hb & Ha).
  unfold rgba_pixels_to_binary in *. cbn [map concat].
  rewrite (IH Hs).
  change (pixels_bytes ((r, g, b, a) :: pixels))
    with ([byte_of_N r; byte_of_N g; byte_of_N b; byte_of_N a] ++ pixels_bytes pixels).
  rewrite binary_of_bytes_app.
  unfold binary_of_bytes at 2. cbn [map concat].
  rewrite !byte_of_N_to_N by assumption.
  now rewrite app_nil_r, <- !app_assoc.
Qed.

Lemma pixels_bytes_length (pixels : list pixel) :
  length (pixels_bytes pixels) = 4 * length pixels.
Proof.
  induction pixels as [|[[[r g] b] a] pixels IH]; [reflexivity|].
  change (pixels_bytes ((r, g, b, a) :: pixels))
    with ([byte_of_N r; byte_of_N g; byte_of_N b; byte_of_N a] ++ pixels_bytes pixels).
  rewrite length_app, IH. simpl. lia.
Qed.

(** Claim C2.  In decode, the bit sequence recovered from a (non-empty)
    image always has a length that is a multiple of 8, so no padding is ever
    added, and line 193 converts it to the big-endian grouping of 8 bits per
    byte: the result is the conversion the spec words (zero bits on the
    right up to a multiple of 8, then grouping), which here is the plain
    grouping of the bit string, leading zero bits kept, one byte per 8
    bits. *)
Theorem image_bits_to_bytes (img : PIL.Image) :
  rgba_pixels (PIL.getdata img) = true ->
  PIL.getdata img <> [] ->
  length (create_binary_from_image img) mod 8 = 0
  /\ bytes_of_binary (create_binary_from_image img)
     = Ok (spec_bytes_of_bits (create_binary_from_image img))
  /\ bytes_of_binary (create_binary_from_image img)
     = Ok (group8 (create_binary_from_image img))
  /\ length (group8 (create_binary_from_image img))
     = length (create_binary_from_image img) / 8.
Proof.
  intros Hr Hne.
  unfold create_binary_from_image.
  set (bits := rgba_pixels_to_binary (PIL.getdata img)).
  assert (Eb : bits = binary_of_bytes (pixels_bytes (PIL.getdata img)))
    by (apply rgba_pixels_to_binary_bytes; exact Hr).
  assert (Hl : length bits = 8 * (4 * length (PIL.getdata img)))
    by (rewrite Eb, binary_of_bytes_length, pixels_bytes_length; reflexivity).
  assert (Hm : length bits mod 8 = 0)
    by (rewrite Hl, Nat.mul_comm; apply Nat.Div0.mod_mul).
  assert (Hb : is_bits bits = true)
    by (rewrite Eb; apply binary_of_bytes_is_bits).
  assert (Hn : bits <> []).
  { intros E. rewrite E in Hl. simpl in Hl.
    destruct (PIL.getdata img); [congruence | simpl in Hl; lia]. }
  destruct (pad8_spec (length bits)) as [_ H0]. specialize (H0 Hm).
  assert (Hg : bytes_of_binary bits = Ok (group8 bits)).
  { rewrite (bytes_of_binary_bits bits Hb Hn).
    unfold left_padded_grouping. now rewrite H0. }
  split; [exact Hm|]. split; [|split; [exact Hg|]].
  - rewrite Hg. unfold spec_bytes_of_bits. rewrite H0. cbn [repeat].
    now rewrite app_nil_r.
  - unfold group8. now rewrite length_map, chunks_length.
Qed.

Lemma image_bits_to_bytes_witness :
  rgba_pixels (PIL.getdata (PIL.mkImage (1, 2)%N [(0, 65, 66, 255); (1, 2, 3, 4)]%N))
  = true
  /\ length (create_binary_from_image
               (PIL.mkImage (1, 2)%N [(0, 65, 66, 255); (1, 2, 3, 4)]%N)) mod 8 = 0
  /\ bytes_of_binary
       (create_binary_from_image
          (PIL.mkImage (1, 2)%N [(0, 65, 66, 255); (1, 2, 3, 4)]%N))
     = Ok (spec_bytes_of_bits
             (create_binary_from_image
                (PIL.mkImage (1, 2)%N [(0, 65, 66, 255); (1, 2, 3, 4)]%N)))
  /\ bytes_of_binary
       (create_binary_from_image
          (PIL.mkImage (1, 2)%N [(0, 65, 66, 255); (1, 2, 3, 4)]%N))
     = Ok (group8
             (create_binary_from_image
                (PIL.mkImage (1, 2)%N [(0, 65, 66, 255); (1, 2, 3, 4)]%N)))
  /\ length (group8
               (create_binary_from_image
                  (PIL.mkImage (1, 2)%N [(0, 65, 66, 255); (1, 2, 3, 4)]%N)))
     = length (create_binary_from_image
                 (PIL.mkImage (1, 2)%N [(0, 65, 66, 255); (1, 2, 3, 4)]%N)) / 8.
Proof.
  split; [reflexivity|].
  apply (image_bits_to_bytes (PIL.mkImage (1, 2)%N [(0, 65, 66, 255); (1, 2, 3, 4)]%N));
    [reflexivity | discriminate].
Defined.

Lemma binary_of_bytes_inj (d e : bytes) :
  binary_of_bytes d = binary_of_bytes e -> d = e.
Proof.
  intros H. rewrite <- (group8_binary_of_bytes d), <- (group8_binary_of_bytes e).
  now rewrite H.
Qed.

(** The pixels of the packing loop are in range. *)
Lemma pack_chunks_rgba (m : nat) :
  forall s pixels, length s = 32 * m -> is_bits s = true ->
    mapM pixel_of_chunk (chunks m 32 s) = Ok pixels -> rgba_pixels pixels = true.
Proof.
  induction m as [|m IH]; intros s pixels Hlen Hbits Hm.
  - simpl in Hm. injection Hm as <-. reflexivity.
  - assert (L1 : length (firstn 32 s) = 32) by (rewrite length_firstn; lia).
    assert (L2 : length (skipn 32 s) = 32 * m) by (rewrite length_skipn; lia).
    destruct (pixel_of_chunk_ok _ L1 (is_bits_firstn 32 _ Hbits))
      as (r & g & b & a & Hp & _ & [Cr _] & [Cg _] & [Cb _] & [Ca _]).
    cbn [chunks mapM] in Hm. rewrite Hp in Hm.
    destruct (mapM pixel_of_chunk (chunks m 32 (skipn 32 s))) as [ps|e] eqn:Hs;
      [|discriminate Hm].
    injection Hm as <-.
    cbn [rgba_pixels forallb]. fold (rgba_pixels ps).
    rewrite (IH _ ps L2 (is_bits_skipn 32 _ Hbits) Hs).
    unfold rgba_pixel.
    apply N.ltb_lt in Cr, Cg, Cb, Ca. now rewrite Cr, Cg, Cb, Ca.
Qed.

Lemma packed_pixels_rgba (binary_data : list ascii) (pixels : list pixel) (pad : nat) :
  is_bits binary_data = true ->
  binary_to_rgba_pixels binary_data = Ok (pixels, pad) ->
  rgba_pixels pixels = true.
Proof.
  intros Hb Hp.
  pose proof (binary_to_rgba_pixels_chunks binary_data) as Hc. cbv zeta in Hc.
  rewrite Hp in Hc.
  set (padded := binary_data ++ repeat "0"%char ((32 - length binary_data mod 32) mod 32)) in *.
  destruct (padding_32 (length binary_data)) as (_ & Hlen & _).
  assert (Lp : length padded = 32 * (length padded / 32)).
  { unfold padded at 1 2. rewrite length_app, repeat_length. exact Hlen. }
  assert (Bp : is_bits padded = true)
    by (unfold padded; now rewrite is_bits_app, Hb, is_bits_repeat_0).
  destruct (mapM pixel_of_chunk (chunks (length padded / 32) 32 padded)) as [ps|e] eqn:Hm;
    [|discriminate Hc].
  cbn [rbind] in Hc. injection Hc as <-.
  exact (pack_chunks_rgba _ padded pixels Lp Bp Hm).
Qed.

Lemma pixels_bytes_inj (p q : list pixel) :
  rgba_pixels p = true -> rgba_pixels q = true ->
  pixels_bytes p = pixels_bytes q -> p = q.
Proof.
  revert q; induction p as [|[[[r g] b] a] p IH]; intros q Hp Hq E.
  - destruct q as [|[[[r' g'] b'] a'] q]; [reflexivity|discriminate E].
  - destruct q as [|[[[r' g'] b'] a'] q]; [discriminate E|].
    cbn [rgba_pixels forallb] in Hp, Hq.
    apply andb_true_iff in Hp. destruct Hp as [Hp Hps].
    apply andb_true_iff in Hq. destruct Hq as [Hq Hqs].
    apply rgba_pixel_bound in Hp, Hq.
    destruct Hp as (Hr & Hg & Hb & Ha). destruct Hq as (Hr' & Hg' & Hb' & Ha').
    cbn [pixels_bytes flat_map pixel_bytes app] in E.
    injection E as Er Eg Eb Ea E.
    apply (f_equal Byte.to_N) in Er, Eg, Eb, Ea.
    rewrite !byte_of_N_to_N in Er, Eg, Eb, Ea by assumption.
    subst. f_equal. now apply IH.
Qed.

(** ** Properties of the codec functions *)

(** Property X1.  Packing the bit string printed from in-range pixels gives the pixels
    back, with no padding. *)
Theorem pack_after_unpack (pixels : list pixel) :
  rgba_pixels pixels = true ->
  binary_to_rgba_pixels (rgba_pixels_to_binary pixels) = Ok (pixels, 0).
Proof.
  intros Hr.
  pose proof (rgba_pixels_to_binary_bytes pixels Hr) as Eb.
  assert (Hb : is_bits (rgba_pixels_to_binary pixels) = true)
    by (rewrite Eb; apply binary_of_bytes_is_bits).
  assert (Hl : length (rgba_pixels_to_binary pixels) = 32 * length pixels)
    by (rewrite Eb, binary_of_bytes_length, pixels_bytes_length; lia).
  destruct (pack_unpack _ Hb) as (pixels' & Hp & _ & Hu).
  pose proof (packed_pixels_rgba _ _ _ Hb Hp) as Hr'.
  rewrite Hl in Hp, Hu.
  replace ((32 - (32 * length pixels) mod 32) mod 32) with 0 in Hp, Hu
    by (rewrite Nat.mul_comm, Nat.Div0.mod_mul; reflexivity).
  cbn [repeat] in Hu. rewrite app_nil_r in Hu.
  rewrite Eb, (rgba_pixels_to_binary_bytes pixels' Hr') in Hu.
  apply binary_of_bytes_inj, pixels_bytes_inj in Hu; try assumption.
  now rewrite Hp, Hu.
Qed.

Lemma pack_after_unpack_witness :
  rgba_pixels [(255, 0, 160, 1); (7, 8, 9, 10)]%N = true
  /\ binary_to_rgba_pixels
       (rgba_pixels_to_binary [(255, 0, 160, 1); (7, 8, 9, 10)]%N)
     = Ok ([(255, 0, 160, 1); (7, 8, 9, 10)]%N, 0).
Proof.
  split; [reflexivity|].
  apply (pack_after_unpack [(255, 0, 160, 1); (7, 8, 9, 10)]%N). reflexivity.
Defined.

(** Property X2.  The reverse path reads an image as its raw bytes: the bytes handed to
    the decompressor are the channel values of the pixels, four per pixel,
    in order. *)
Theorem image_as_raw_bytes (img : PIL.Image) :
  rgba_pixels (PIL.getdata img) = true ->
  PIL.getdata img <> [] ->
  bytes_of_binary (create_binary_from_image img) = Ok (pixels_bytes (PIL.getdata img))
  /\ length (pixels_bytes (PIL.getdata img)) = 4 * length (PIL.getdata img).
Proof.
  intros Hr Hne. split; [|apply pixels_bytes_length].
  unfold create_binary_from_image.
  rewrite (rgba_pixels_to_binary_bytes _ Hr).
  apply bytes_of_binary_of_bytes.
  intros E. apply (f_equal (@length _)) in E.
  rewrite pixels_bytes_length in E.
  destruct (PIL.getdata img); [congruence | simpl in E; lia].
Qed.

Lemma image_as_raw_bytes_witness :
  rgba_pixels (PIL.getdata (PIL.mkImage (1, 2)%N [(0, 65, 66, 255); (1, 2, 3, 4)]%N))
  = true
  /\ bytes_of_binary
       (create_binary_from_image
          (PIL.mkImage (1, 2)%N [(0, 65, 66, 255); (1, 2, 3, 4)]%N))
     = Ok (pixels_bytes
             (PIL.getdata (PIL.mkImage (1, 2)%N [(0, 65, 66, 255); (1, 2, 3, 4)]%N)))
  /\ length (pixels_bytes
               (PIL.getdata (PIL.mkImage (1, 2)%N [(0, 65, 66, 255); (1, 2, 3, 4)]%N)))
     = 4 * length (PIL.getdata (PIL.mkImage (1, 2)%N [(0, 65, 66, 255); (1, 2, 3, 4)]%N)).
Proof.
  split; [reflexivity|].
  apply (image_as_raw_bytes (PIL.mkImage (1, 2)%N [(0, 65, 66, 255); (1, 2, 3, 4)]%N));
    [reflexivity | discriminate].
Defined.

(** Property X3.  The forward path stores a byte string as raw pixels: the pixels packed
    from the bits of [data] are in range, their bytes are [data] followed by
    the zero bytes that fill the last pixel, and there is one pixel per four
    bytes, rounded up. *)
Theorem frame_as_raw_pixels (data : bytes) :
  exists pixels,
    binary_to_rgba_pixels (binary_of_bytes data)
    = Ok (pixels, 8 * ((4 - length data mod 4) mod 4))
    /\ rgba_pixels pixels = true
    /\ pixels_bytes pixels = data ++ repeat x00 ((4 - length data mod 4) mod 4)
    /\ length pixels = (length data + 3) / 4.
Proof.
  pose proof (binary_of_bytes_is_bits data) as Hb.
  destruct (pack_unpack _ Hb) as (pixels & Hp & Hl & _).
  rewrite binary_of_bytes_length, byte_padding in Hp, Hl.
  pose proof (packed_pixels_rgba _ _ _ Hb Hp) as Hr.
  exists pixels. split; [exact Hp|]. split; [exact Hr|]. split.
  - pose proof (unpack_bytes data pixels _ 0 Hp) as Hu.
    cbn [repeat] in Hu. rewrite app_nil_r, Nat.mul_0_r, Nat.add_0_r in Hu.
    rewrite (rgba_pixels_to_binary_bytes _ Hr) in Hu.
    now apply binary_of_bytes_inj in Hu.
  - pose proof (Nat.mod_upper_bound (4 - length data mod 4) 4 ltac:(lia)) as Hm.
    apply Nat.div_unique with (r := length data + 3 - 4 * length pixels); lia.
Qed.

(** Property X4.  [create_image_from_binary] on a bit string succeeds exactly when the
    grid has a cell for each pixel: with fewer cells [putdata] raises
    [TypeError]; otherwise the image has the requested size and exactly
    [width * height] pixels. *)
Theorem create_image_fits (binary_data : list ascii) (width height : N) :
  is_bits binary_data = true ->
  (N.to_nat (width * height) < (length binary_data + 31) / 32 ->
   create_image_from_binary binary_data width height = Raise TypeError)
  /\ ((length binary_data + 31) / 32 <= N.to_nat (width * height) ->
      exists img,
        create_image_from_binary binary_data width height = Ok img
        /\ PIL.size img = (width, height)
        /\ length (PIL.getdata img) = N.to_nat (width * height)).
Proof.
  intros Hb.
  destruct (pack_unpack _ Hb) as (pixels & Hp & Hl & _).
  pose proof (Nat.mod_upper_bound (32 - length binary_data mod 32) 32 ltac:(lia)) as Hm.
  assert (Hn : (length binary_data + 31) / 32 = length pixels).
  { symmetry.
    apply Nat.div_unique with (r := length binary_data + 31 - 32 * length pixels); lia. }
  rewrite Hn. split.
  - intros Hsmall. unfold create_image_from_binary. rewrite Hp. cbn [rbind].
    unfold PIL.putdata, PIL.new. cbn [PIL.getdata]. rewrite repeat_length.
    destruct (Nat.ltb_spec (N.to_nat (width * height)) (length pixels)) as [_|]; [reflexivity|lia].
  - intros Hfit. eexists. split.
    + exact (create_image_from_binary_ok _ width height pixels _ Hp Hfit).
    + cbn [PIL.size PIL.getdata]. split; [reflexivity|].
      rewrite length_app, repeat_length. lia.
Qed.

Lemma create_image_fits_witness :
  is_bits sample_bits_25 = true
  /\ (N.to_nat (0 * 5) < (length sample_bits_25 + 31) / 32 ->
      create_image_from_binary sample_bits_25 0 5 = Raise TypeError)
  /\ ((length sample_bits_25 + 31) / 32 <= N.to_nat (0 * 5) ->
      exists img,
        create_image_from_binary sample_bits_25 0 5 = Ok img
        /\ PIL.size img = (0, 5)%N
        /\ length (PIL.getdata img) = N.to_nat (0 * 5)).
Proof.
  split; [reflexivity|].
  apply (create_image_fits sample_bits_25 0 5). reflexivity.
Defined.

(** Property X5.  On the image the encoder builds for a frame, the bytes the decoder hands
    to the decompressor are the frame followed by zero bytes only, at least
    four of them, filling the [width * height] pixels: the bare frame never
    reaches the decompressor. *)
Theorem decoder_sees_trailing_zeros (frame : bytes) :
  (N.of_nat (8 * length frame) < max_len)%N ->
  exists pixel_count width img k,
    layout (N.of_nat (length (binary_of_bytes frame))) = Ok (pixel_count, width, width)
    /\ create_image_from_binary (binary_of_bytes frame) width width = Ok img
    /\ bytes_of_binary (create_binary_from_image img) = Ok (frame ++ repeat x00 k)
    /\ 4 <= k
    /\ length frame + k = 4 * N.to_nat (width * width).
Proof.
  intros Hmax.
  pose proof (binary_of_bytes_is_bits frame) as Hb.
  destruct (pack_unpack _ Hb) as (pixels & Hp & Hl & _).
  rewrite <- (binary_of_bytes_length frame) in Hmax.
  destruct (layout_ok _ Hmax) as (width & Hlay & Hfit & _).
  rewrite (pixel_count_length _ pixels _ Hp Hb) in Hlay, Hfit.
  pose proof (create_image_from_binary_ok _ width width pixels _ Hp ltac:(lia)) as Hi.
  set (z := N.to_nat (width * width) - length pixels) in *.
  assert (Hz : 0 < z) by (unfold z; lia).
  eexists _, width, _, _.
  split; [exact Hlay|]. split; [exact Hi|].
  split; [|split].
  - unfold create_binary_from_image. cbn [PIL.getdata].
    exact (decode_pixels frame pixels _ z Hp (or_intror Hz)).
  - lia.
  - rewrite binary_of_bytes_length, byte_padding in Hl. unfold z. lia.
Qed.

Lemma decoder_sees_trailing_zeros_witness :
  (N.of_nat (8 * length sample_payload) < max_len)%N
  /\ exists pixel_count width img k,
      layout (N.of_nat (length (binary_of_bytes sample_payload)))
      = Ok (pixel_count, width, width)
      /\ create_image_from_binary (binary_of_bytes sample_payload) width width = Ok img
      /\ bytes_of_binary (create_binary_from_image img)
         = Ok (sample_payload ++ repeat x00 k)
      /\ 4 <= k
      /\ length sample_payload + k = 4 * N.to_nat (width * width).
Proof.
  split; [reflexivity|].
  apply (decoder_sees_trailing_zeros sample_payload). reflexivity.
Defined.

(* ================================================================== *)
(** * Every run of the conversion methods                              *)
(* ================================================================== *)

Local Open Scope string_scope.

Section EveryRun.
Context {Z : Zstandard} {D : Disk}.

(** Property X7.  [convert_file_to_image] calls [img.save] only for a file
    that was read and that compression made strictly shorter, and after the
    call the only error that can follow is the disk's refusal of the save:
    the run then ends with progress 100 and the status text when the save
    returns, and with the logged and shown error when it raises.  In
    particular the division by the original size cannot fail. *)
Theorem save_only_when_smaller (input_file output_dir : string) :
  saved_images (ByteMapApp.convert_file_to_image input_file output_dir) = []
  \/ exists file_data frame saved_as img,
       read_binary input_file = Ok file_data
       /\ zstd_compress file_data = Ok frame
       /\ length frame < length file_data
       /\ ByteMapApp.convert_file_to_image input_file output_dir
          = ([ByteMapApp.update_progress 0; ByteMapApp.update_progress 20;
              ByteMapApp.update_progress 50;
              ByteMapApp.img_save saved_as img]
             ++ match image_save saved_as img with
                | Ok _ =>
                    [ByteMapApp.update_progress 100;
                     ByteMapApp.status_label_config
                       (ByteMapApp.image_saved saved_as
                          (length file_data) (length frame))]
                | Raise e =>
                    [ByteMapApp.logging_error
                       "Error in convert_file_to_image: %s" e;
                     ByteMapApp.showerror_exn "Error" e]
                end)%list.
Proof.
  unfold ByteMapApp.convert_file_to_image.
  destruct (is_empty input_file || is_empty output_dir); [left; reflexivity|].
  repeat run_step.
  destruct (read_binary input_file) as [file_data|e] eqn:Hread;
    [|left; reflexivity].
  repeat run_step. unfold ByteMapApp.compress_data.
  destruct (zstd_compress file_data) as [frame|e] eqn:Hcomp;
    [|left; reflexivity].
  repeat run_step.
  destruct (Nat.leb_spec (length file_data) (length frame)) as [Hle|Hlt];
    [left; reflexivity|].
  repeat run_step.
  destruct (layout (N.of_nat (length (binary_of_bytes frame))))
    as [[[pixel_count width] height]|e]; [|left; reflexivity].
  repeat run_step.
  destruct (create_image_from_binary (binary_of_bytes frame) width height)
    as [img|e]; [|left; reflexivity].
  repeat run_step.
  right. exists file_data, frame.
  exists (path_join output_dir
            (String.append (splitext_root (basename input_file)) ".bytemap.png")), img.
  split; [reflexivity|]. split; [exact Hcomp|]. split; [exact Hlt|].
  destruct (image_save _ img) as [u|e]; [|reflexivity].
  repeat run_step. unfold check_division.
  destruct (Nat.eqb_spec (length file_data) 0) as [E0|_]; [lia|].
  repeat run_step. reflexivity.
Qed.

(** Property X8.  [convert_image_to_file] opens its output file only after
    the bytes read from the image have been decompressed, and what it writes
    is the decompressed bytes; after that the only error that can follow is
    the disk's refusal of the write: the run ends with progress 100 and the
    status text when the write returns, and with the logged and shown error
    when it raises. *)
Theorem write_only_after_decompression (input_file output_dir : string) :
  written_data (ByteMapApp.convert_image_to_file input_file output_dir) = []
  \/ exists img byte_data decompressed_data output_file,
       image_open input_file = Ok img
       /\ bytes_of_binary (create_binary_from_image img) = Ok byte_data
       /\ zstd_decompress byte_data = Ok decompressed_data
       /\ ByteMapApp.convert_image_to_file input_file output_dir
          = ([ByteMapApp.update_progress 0; ByteMapApp.update_progress 50;
              ByteMapApp.write_binary output_file decompressed_data]
             ++ match file_write output_file decompressed_data with
                | Ok _ =>
                    [ByteMapApp.update_progress 100;
                     ByteMapApp.status_label_config
                       (ByteMapApp.file_saved output_file)]
                | Raise e =>
                    [ByteMapApp.logging_error
                       "Error in convert_image_to_file: %s" e;
                     ByteMapApp.showerror_exn "Error" e]
                end)%list.
Proof.
  unfold ByteMapApp.convert_image_to_file.
  destruct (is_empty input_file || is_empty output_dir); [left; reflexivity|].
  repeat run_step.
  destruct (image_open input_file) as [img|e] eqn:Hopen; [|left; reflexivity].
  repeat run_step.
  destruct (bytes_of_binary (create_binary_from_image img)) as [byte_data|e] eqn:Hb;
    [|left; reflexivity].
  repeat run_step. unfold ByteMapApp.decompress_data.
  destruct (zstd_decompress byte_data) as [decompressed_data|e] eqn:Hd;
    [|left; reflexivity].
  repeat run_step.
  right. exists img, byte_data, decompressed_data.
  exists (path_join output_dir
            (String.append (splitext_root (basename input_file)) ".output")).
  split; [reflexivity|]. split; [exact Hb|]. split; [exact Hd|].
  destruct (file_write _ decompressed_data) as [u|e]; [|reflexivity].
  repeat run_step. reflexivity.
Qed.


(** Property X9.  The two applications produce the same artifacts: on the same disk and
    with the same paths, the worker of bytemap_beta.py saves the images and
    writes the bytes that the methods of bytemap.py save and write. *)
Theorem applications_agree (input_file output_dir : string) :
  is_empty input_file = false -> is_empty output_dir = false ->
  worker_saved_images
    (ConversionWorker.run ConversionWorker.to_image input_file output_dir)
  = saved_images (ByteMapApp.convert_file_to_image input_file output_dir)
  /\ worker_written_data
       (ConversionWorker.run ConversionWorker.to_file input_file output_dir)
     = written_data (ByteMapApp.convert_image_to_file input_file output_dir).
Proof.
  intros Hi Ho. split.
  - unfold ByteMapApp.convert_file_to_image, ConversionWorker.run,
      ConversionWorker.convert_to_image.
    rewrite Hi, Ho. cbn [orb].
    repeat run_step.
    destruct (read_binary input_file) as [file_data|e]; [|reflexivity].
    repeat run_step.
    unfold ByteMapApp.compress_data, ConversionWorker.compress_data.
    destruct (zstd_compress file_data) as [frame|e]; [|reflexivity].
    repeat run_step.
    destruct (Nat.leb_spec (length file_data) (length frame)) as [Hle|Hlt];
      [reflexivity|].
    repeat run_step.
    destruct (layout (N.of_nat (length (binary_of_bytes frame))))
      as [[[pixel_count width] height]|e]; [|reflexivity].
    repeat run_step.
    destruct (create_image_from_binary (binary_of_bytes frame) width height)
      as [img|e]; [|reflexivity].
    repeat run_step.
    destruct (image_save _ img) as [u|e]; [|reflexivity].
    repeat run_step. unfold check_division.
    destruct (Nat.eqb_spec (length file_data) 0) as [E0|_]; [lia|].
    repeat run_step. reflexivity.
  - unfold ByteMapApp.convert_image_to_file, ConversionWorker.run,
      ConversionWorker.convert_to_file.
    rewrite Hi, Ho. cbn [orb].
    repeat run_step.
    destruct (image_open input_file) as [img|e]; [|reflexivity].
    repeat run_step.
    destruct (bytes_of_binary (create_binary_from_image img)) as [byte_data|e];
      [|reflexivity].
    repeat run_step.
    unfold ByteMapApp.decompress_data, ConversionWorker.decompress_data.
    destruct (zstd_decompress byte_data) as [decompressed_data|e]; [|reflexivity].
    repeat run_step.
    destruct (file_write _ decompressed_data) as [u|e]; [|reflexivity].
    repeat run_step. reflexivity.
Qed.

(** Property X10.  When the decompressor rejects the bytes read from an image, both
    applications write nothing: the failure is logged by [decompress_data],
    logged again by the conversion method, and reported to the user. *)
Theorem corrupt_image_reported (input_file output_dir : string)
        (img : PIL.Image) (byte_data : bytes) (e : exn) :
  is_empty input_file = false -> is_empty output_dir = false ->
  image_open input_file = Ok img ->
  bytes_of_binary (create_binary_from_image img) = Ok byte_data ->
  zstd_decompress byte_data = Raise e ->
  ByteMapApp.convert_image_to_file input_file output_dir
  = [ByteMapApp.update_progress 0; ByteMapApp.update_progress 50;
     ByteMapApp.logging_error "Error during decompression: %s" e;
     ByteMapApp.logging_error "Error in convert_image_to_file: %s" e;
     ByteMapApp.showerror_exn "Error" e]
  /\ ConversionWorker.run ConversionWorker.to_file input_file output_dir
     = [ConversionWorker.progress_emit 10; ConversionWorker.progress_emit 30;
        ConversionWorker.progress_emit 50; ConversionWorker.progress_emit 70;
        ConversionWorker.logging_error "Decompression error: {e}" e;
        ConversionWorker.logging_error "Error in convert_to_file: {e}" e;
        ConversionWorker.error_emit_exn e].
Proof.
  intros Hi Ho Hopen Hb Hd. split.
  - unfold ByteMapApp.convert_image_to_file.
    rewrite Hi, Ho. cbn [orb].
    repeat run_step. rewrite Hopen. repeat run_step. rewrite Hb. repeat run_step.
    unfold ByteMapApp.decompress_data. rewrite Hd. reflexivity.
  - unfold ConversionWorker.run, ConversionWorker.convert_to_file.
    repeat run_step. rewrite Hopen. repeat run_step. rewrite Hb. repeat run_step.
    unfold ConversionWorker.decompress_data. rewrite Hd. reflexivity.
Qed.

(** Property X11.  When the compressor raises, both applications save nothing: the
    failure is logged by [compress_data], which raises it again, then logged
    by the conversion method and reported to the user. *)
Theorem compression_failure_reported (input_file output_dir : string)
        (file_data : bytes) (e : exn) :
  is_empty input_file = false -> is_empty output_dir = false ->
  read_binary input_file = Ok file_data ->
  zstd_compress file_data = Raise e ->
  ByteMapApp.convert_file_to_image input_file output_dir
  = [ByteMapApp.update_progress 0; ByteMapApp.update_progress 20;
     ByteMapApp.logging_error "Error during compression: %s" e;
     ByteMapApp.logging_error "Error in convert_file_to_image: %s" e;
     ByteMapApp.showerror_exn "Error" e]
  /\ ConversionWorker.run ConversionWorker.to_image input_file output_dir
     = [ConversionWorker.progress_emit 10; ConversionWorker.progress_emit 30;
        ConversionWorker.logging_error "Compression error: {e}" e;
        ConversionWorker.logging_error "Error in convert_to_image: {e}" e;
        ConversionWorker.error_emit_exn e].
Proof.
  intros Hi Ho Hread Hc. split.
  - unfold ByteMapApp.convert_file_to_image.
    rewrite Hi, Ho. cbn [orb].
    repeat run_step. rewrite Hread. repeat run_step.
    unfold ByteMapApp.compress_data. rewrite Hc. reflexivity.
  - unfold ConversionWorker.run, ConversionWorker.convert_to_image.
    repeat run_step. rewrite Hread. repeat run_step.
    unfold ConversionWorker.compress_data. rewrite Hc. reflexivity.
Qed.

(** Property X12.  The round trip through the worker of bytemap_beta.py: on
    a file that compression shrinks, [run] in mode ['to_image'] calls
    [img.save] on one image, and [run] in the other mode, on a disk where
    that image is what [Image.open] returns, opens its output file to write
    exactly the file's bytes.  Each run emits [finished] when the disk
    accepts the save or the write; when the disk raises, the error is
    logged and emitted. *)
Theorem worker_round_trip (input_file output_dir : string)
        (file_data frame : bytes) :
  trailing_zeros_ignored Z ->
  read_binary input_file = Ok file_data ->
  zstd_compress file_data = Ok frame ->
  length frame < length file_data ->
  (N.of_nat (8 * length frame) < max_len)%N ->
  exists img saved_as,
    ConversionWorker.run ConversionWorker.to_image input_file output_dir
    = ([ConversionWorker.progress_emit 10; ConversionWorker.progress_emit 30;
        ConversionWorker.progress_emit 60;
        ConversionWorker.img_save saved_as img]
       ++ match image_save saved_as img with
          | Ok _ =>
              [ConversionWorker.progress_emit 100;
               ConversionWorker.finished_emit
                 (ConversionWorker.image_converted
                    (length file_data) (length frame) saved_as) true]
          | Raise e =>
              [ConversionWorker.logging_error "Error in convert_to_image: {e}" e;
               ConversionWorker.error_emit_exn e]
          end)%list
    /\ forall (D' : Disk) (image_file output_dir' : string),
         image_open (Disk := D') image_file = Ok img ->
         ConversionWorker.run (D := D') ConversionWorker.to_file image_file output_dir'
         = let output_file :=
             path_join (Disk := D') output_dir'
               (splitext_root (Disk := D') (basename (Disk := D') image_file)
                ++ ".output") in
           ([ConversionWorker.progress_emit 10; ConversionWorker.progress_emit 30;
             ConversionWorker.progress_emit 50; ConversionWorker.progress_emit 70;
             ConversionWorker.write_binary output_file file_data]
            ++ match file_write (Disk := D') output_file file_data with
               | Ok _ =>
                   [ConversionWorker.progress_emit 100;
                    ConversionWorker.finished_emit
                      (ConversionWorker.file_converted output_file) true]
               | Raise e =>
                   [ConversionWorker.logging_error
                      "Error in convert_to_file: {e}" e;
                    ConversionWorker.error_emit_exn e]
               end)%list.
Proof.
  intros Hz Hread Hcomp Hlt Hmax.
  pose proof (binary_of_bytes_is_bits frame) as Hb.
  destruct (pack_unpack _ Hb) as (pixels & Hp & _ & _).
  rewrite <- (binary_of_bytes_length frame) in Hmax.
  destruct (layout_ok _ Hmax) as (width & Hlay & Hfit & _).
  rewrite (pixel_count_length _ pixels _ Hp Hb) in Hlay, Hfit.
  pose proof (create_image_from_binary_ok _ width width pixels _ Hp ltac:(lia)) as Hi.
  set (z := N.to_nat (width * width) - length pixels) in *.
  assert (Hzpos : 0 < z) by (unfold z; lia).
  exists (PIL.mkImage (width, width) (pixels ++ repeat (0, 0, 0, 0)%N z)%list),
    (path_join output_dir
       (String.append (splitext_root (basename input_file)) ".bytemap.png")).
  split.
  - unfold ConversionWorker.run, ConversionWorker.convert_to_image.
    repeat run_step. rewrite Hread. repeat run_step.
    unfold ConversionWorker.compress_data. rewrite Hcomp. repeat run_step.
    destruct (Nat.leb_spec (length file_data) (length frame)) as [|_]; [lia|].
    repeat run_step. rewrite Hlay. repeat run_step. rewrite Hi. repeat run_step.
    destruct (image_save _ _) as [u|e]; [|reflexivity].
    repeat run_step. unfold check_division.
    destruct (Nat.eqb_spec (length file_data) 0) as [|_]; [lia|].
    repeat run_step. reflexivity.
  - intros D' image_file output_dir' Hopen.
    unfold ConversionWorker.run, ConversionWorker.convert_to_file.
    repeat run_step. rewrite Hopen. repeat run_step.
    unfold create_binary_from_image. cbn [PIL.getdata].
    rewrite (decode_pixels frame pixels _ z Hp (or_intror Hzpos)).
    repeat run_step.
    unfold ConversionWorker.decompress_data.
    rewrite (Hz file_data frame _ Hcomp). repeat run_step. cbv zeta.
    destruct (file_write _ _) as [u|e]; [|reflexivity].
    repeat run_step. reflexivity.
Qed.

End EveryRun.

Lemma corrupt_image_reported_witness :
  ByteMapApp.convert_image_to_file
    (Z := Toy.zstd)
    (D := Toy.disk (Raise OSError) (Ok (PIL.mkImage (1, 1)%N [(9, 9, 9, 9)%N])))
    "photo.png" "out"
  = [ByteMapApp.update_progress 0; ByteMapApp.update_progress 50;
     ByteMapApp.logging_error "Error during decompression: %s" ZstdError;
     ByteMapApp.logging_error "Error in convert_image_to_file: %s" ZstdError;
     ByteMapApp.showerror_exn "Error" ZstdError]
  /\ ConversionWorker.run
       (Z := Toy.zstd)
       (D := Toy.disk (Raise OSError) (Ok (PIL.mkImage (1, 1)%N [(9, 9, 9, 9)%N])))
       ConversionWorker.to_file "photo.png" "out"
     = [ConversionWorker.progress_emit 10; ConversionWorker.progress_emit 30;
        ConversionWorker.progress_emit 50; ConversionWorker.progress_emit 70;
        ConversionWorker.logging_error "Decompression error: {e}" ZstdError;
        ConversionWorker.logging_error "Error in convert_to_file: {e}" ZstdError;
        ConversionWorker.error_emit_exn ZstdError].
Proof.
  apply (@corrupt_image_reported Toy.zstd
           (Toy.disk (Raise OSError) (Ok (PIL.mkImage (1, 1)%N [(9, 9, 9, 9)%N])))
           "photo.png" "out" (PIL.mkImage (1, 1)%N [(9, 9, 9, 9)%N])
           [x09; x09; x09; x09] ZstdError); reflexivity.
Defined.

Lemma applications_agree_witness :
  worker_saved_images
    (ConversionWorker.run
       (Z := Toy.zstd) (D := Toy.disk (Ok [x41; x41; x41; x41]) (Raise OSError))
       ConversionWorker.to_image "in.bin" "out")
  = saved_images
      (ByteMapApp.convert_file_to_image
         (Z := Toy.zstd) (D := Toy.disk (Ok [x41; x41; x41; x41]) (Raise OSError))
         "in.bin" "out")
  /\ worker_written_data
       (ConversionWorker.run
          (Z := Toy.zstd) (D := Toy.disk (Ok [x41; x41; x41; x41]) (Raise OSError))
          ConversionWorker.to_file "in.bin" "out")
     = written_data
         (ByteMapApp.convert_image_to_file
            (Z := Toy.zstd) (D := Toy.disk (Ok [x41; x41; x41; x41]) (Raise OSError))
            "in.bin" "out").
Proof.
  apply (@applications_agree Toy.zstd
           (Toy.disk (Ok [x41; x41; x41; x41]) (Raise OSError)) "in.bin" "out");
    reflexivity.
Defined.

Lemma worker_round_trip_witness :
  exists img saved_as,
    ConversionWorker.run
      (Z := Toy.zstd) (D := Toy.disk (Ok [x41; x41; x41; x41]) (Raise OSError))
      ConversionWorker.to_image "in.bin" "out"
    = [ConversionWorker.progress_emit 10; ConversionWorker.progress_emit 30;
       ConversionWorker.progress_emit 60;
       ConversionWorker.img_save saved_as img;
       ConversionWorker.progress_emit 100;
       ConversionWorker.finished_emit
         (ConversionWorker.image_converted 4 2 saved_as) true]
    /\ forall (D' : Disk) (image_file output_dir' : string),
         image_open (Disk := D') image_file = Ok img ->
         ConversionWorker.run (Z := Toy.zstd) (D := D')
           ConversionWorker.to_file image_file output_dir'
         = let output_file :=
             path_join (Disk := D') output_dir'
               (splitext_root (Disk := D') (basename (Disk := D') image_file)
                ++ ".output") in
           ([ConversionWorker.progress_emit 10; ConversionWorker.progress_emit 30;
             ConversionWorker.progress_emit 50; ConversionWorker.progress_emit 70;
             ConversionWorker.write_binary output_file [x41; x41; x41; x41]]
            ++ match file_write (Disk := D') output_file [x41; x41; x41; x41] with
               | Ok _ =>
                   [ConversionWorker.progress_emit 100;
                    ConversionWorker.finished_emit
                      (ConversionWorker.file_converted output_file) true]
               | Raise e =>
                   [ConversionWorker.logging_error
                      "Error in convert_to_file: {e}" e;
                    ConversionWorker.error_emit_exn e]
               end)%list.
Proof.
  apply (@worker_round_trip Toy.zstd
           (Toy.disk (Ok [x41; x41; x41; x41]) (Raise OSError))
           "in.bin" "out" [x41; x41; x41; x41] [x02; x41]).
  - exact Toy_trailing_zeros.
  - reflexivity.
  - reflexivity.
  - simpl. lia.
  - reflexivity.
Defined.

Lemma compression_failure_reported_witness :
  ByteMapApp.convert_file_to_image
    (Z := {| zstd_compress := fun _ => Raise ZstdError;
             zstd_decompress := Toy.decompress |})
    (D := Toy.disk (Ok [x41]) (Raise OSError)) "in.bin" "out"
  = [ByteMapApp.update_progress 0; ByteMapApp.update_progress 20;
     ByteMapApp.logging_error "Error during compression: %s" ZstdError;
     ByteMapApp.logging_error "Error in convert_file_to_image: %s" ZstdError;
     ByteMapApp.showerror_exn "Error" ZstdError]
  /\ ConversionWorker.run
       (Z := {| zstd_compress := fun _ => Raise ZstdError;
                zstd_decompress := Toy.decompress |})
       (D := Toy.disk (Ok [x41]) (Raise OSError))
       ConversionWorker.to_image "in.bin" "out"
     = [ConversionWorker.progress_emit 10; ConversionWorker.progress_emit 30;
        ConversionWorker.logging_error "Compression error: {e}" ZstdError;
        ConversionWorker.logging_error "Error in convert_to_image: {e}" ZstdError;
        ConversionWorker.error_emit_exn ZstdError].
Proof.
  apply (@compression_failure_reported
           {| zstd_compress := fun _ => Raise ZstdError;
              zstd_decompress := Toy.decompress |}
           (Toy.disk (Ok [x41]) (Raise OSError)) "in.bin" "out" [x41] ZstdError);
    reflexivity.
Defined.

(** ** A disk that cannot be written

    On a read-only disk both methods of bytemap.py reach the save and the
    write, and the [OSError] they meet there is logged and shown instead of
    progress 100. *)
Lemma read_only_disk_reported :
  ByteMapApp.convert_file_to_image
    (Z := Toy.zstd)
    (D := Toy.read_only_disk (Ok [x41; x41; x41; x41]) (Raise OSError))
    "in.bin" "out"
  = [ByteMapApp.update_progress 0; ByteMapApp.update_progress 20;
     ByteMapApp.update_progress 50;
     ByteMapApp.img_save "out/in.bin.bytemap.png"
       (PIL.mkImage (2, 2)%N
          [(2, 65, 0, 0); (0, 0, 0, 0); (0, 0, 0, 0); (0, 0, 0, 0)]%N);
     ByteMapApp.logging_error "Error in convert_file_to_image: %s" OSError;
     ByteMapApp.showerror_exn "Error" OSError]
  /\ ByteMapApp.convert_image_to_file
       (Z := Toy.zstd)
       (D := Toy.read_only_disk (Raise OSError)
               (Ok (PIL.mkImage (1, 1)%N [(2, 65, 0, 0)%N])))
       "a.png" "out"
     = [ByteMapApp.update_progress 0; ByteMapApp.update_progress 50;
        ByteMapApp.write_binary "out/a.png.output" [x41; x41; x41; x41];
        ByteMapApp.logging_error "Error in convert_image_to_file: %s" OSError;
        ByteMapApp.showerror_exn "Error" OSError].
Proof. split; vm_compute; reflexivity. Qed.
